(** * chat-app-backend: the durable store and the socket handlers

    A shallow embedding of [src/dist/storage/DataStore.js], of the TypeScript
    [DataStore] it was transpiled from, and of the Socket.IO handlers of the
    server files, followed by the properties of the specification that these
    functions decide. *)

From Stdlib Require Import ZArith String Ascii List Bool Lia.
From stdpp Require Import base option list.
Import ListNotations.
Local Open Scope string_scope.
Local Open Scope Z_scope.
Local Open Scope list_scope.

(** ** JavaScript values

    Event payloads arrive from the client as JSON, untyped, and the code
    inspects them with [!v], [typeof v] and [String(v)]; the fields it
    inspects are modelled as [JsVal]. A string is its text in UTF-8. A number
    is known by what the code can observe of it: whether it is falsy ([0]),
    and the string that [String()] makes of it ([1e21] gives ["1e+21"]). An array or an
    object is known by the result of [String()] ([[]] gives the empty string, a
    plain object ["[object Object]"]), which is [None] when the conversion
    throws: an object with a [toString] entry of its own, or an array that
    holds one. *)

Module Js.

Inductive JsVal : Type :=
| JUndefined
| JNull
| JBool (b : bool)
| JNum (zero : bool) (str : string)
| JStr (s : string)
| JObj (str : option string).

(** [!!v] *)
Definition truthy (v : JsVal) : bool :=
  match v with
  | JUndefined | JNull => false
  | JBool b => b
  | JNum zero _ => negb zero
  | JStr s => negb (String.eqb s "")
  | JObj _ => true
  end.

(** [typeof v === 'string'] *)
Definition is_string (v : JsVal) : bool :=
  match v with JStr _ => true | _ => false end.

(** [a || b] *)
Definition js_or (a b : JsVal) : JsVal := if truthy a then a else b.

(** [String(v)]; [None] when it throws. *)
Definition toString (v : JsVal) : option string :=
  match v with
  | JUndefined => Some "undefined"
  | JNull => Some "null"
  | JBool true => Some "true"
  | JBool false => Some "false"
  | JNum _ str => Some str
  | JStr s => Some s
  | JObj str => str
  end.

(** The white space and the line terminators of ECMAScript, which
    [String.prototype.trim] removes, as UTF-8 writes them. In one byte: TAB,
    LF, VT, FF, CR and SPACE. *)
Definition is_space (c : ascii) : bool :=
  let n := nat_of_ascii c in
  ((9 <=? n) && (n <=? 13))%nat || (n =? 32)%nat.

(** In two bytes: U+00A0 (C2 A0). *)
Definition is_space2 (c1 c2 : ascii) : bool :=
  ((nat_of_ascii c1 =? 194) && (nat_of_ascii c2 =? 160))%nat.

(** In three bytes: U+1680 (E1 9A 80), U+2000 to U+200A (E2 80 80 to
    E2 80 8A), U+2028 and U+2029 (E2 80 A8, E2 80 A9), U+202F (E2 80 AF),
    U+205F (E2 81 9F), U+3000 (E3 80 80) and U+FEFF (EF BB BF). *)
Definition is_space3 (c1 c2 c3 : ascii) : bool :=
  let a := nat_of_ascii c1 in
  let b := nat_of_ascii c2 in
  let c := nat_of_ascii c3 in
  ((a =? 225) && (b =? 154) && (c =? 128)
   || (a =? 226) && (b =? 128)
      && ((128 <=? c) && (c <=? 138) || (c =? 168) || (c =? 169) || (c =? 175))
   || (a =? 226) && (b =? 129) && (c =? 159)
   || (a =? 227) && (b =? 128) && (c =? 128)
   || (a =? 239) && (b =? 187) && (c =? 191))%nat.

(** The rest of a string that starts with a white space character. *)
Definition skip_space (s : string) : option string :=
  match s with
  | String c1 r1 =>
      if is_space c1 then Some r1
      else
        match r1 with
        | String c2 r2 =>
            if is_space2 c1 c2 then Some r2
            else
              match r2 with
              | String c3 r3 => if is_space3 c1 c2 c3 then Some r3 else None
              | EmptyString => None
              end
        | EmptyString => None
        end
  | EmptyString => None
  end.

Fixpoint trimStart (s : string) : string :=
  match s with
  | String c1 r1 =>
      if is_space c1 then trimStart r1
      else
        match r1 with
        | String c2 r2 =>
            if is_space2 c1 c2 then trimStart r2
            else
              match r2 with
              | String c3 r3 => if is_space3 c1 c2 c3 then trimStart r3 else s
              | EmptyString => s
              end
        | EmptyString => s
        end
  | EmptyString => EmptyString
  end.

(** From the end: what is left of the tail, with the byte in front, is
    dropped when it is one white space character and nothing else. *)
Fixpoint trimEnd (s : string) : string :=
  match s with
  | EmptyString => EmptyString
  | String c r =>
      match skip_space (String c (trimEnd r)) with
      | Some EmptyString => EmptyString
      | _ => String c (trimEnd r)
      end
  end.

(** [s.trim()] *)
Definition trim (s : string) : string := trimEnd (trimStart s).

(** [arr.slice(start)] for an integral [start]: a negative start counts
    from the end, and both cases are clamped to the array. *)
Definition slice {A : Type} (start : Z) (l : list A) : list A :=
  let len := Z.of_nat (length l) in
  let k := if start <? 0 then Z.max (len + start) 0 else Z.min start len in
  drop (Z.to_nat k) l.

(** A [Date]: milliseconds since the epoch, or the invalid date that
    [new Date(x)] yields for an unparseable [x]. *)
Inductive Date : Type :=
| DateMs (ms : Z)
| InvalidDate.

(** [a > b] on dates: the comparison of their time values, false as soon
    as one of them is NaN. *)
Definition date_gt (a b : Date) : bool :=
  match a, b with
  | DateMs x, DateMs y => y <? x
  | _, _ => false
  end.

(** ** [Map], in insertion order

    [Array.from(m.values())] and [find] over it depend on the order in
    which keys were first set, so a [Map] is an association list:
    [set] on a key already present replaces the value where it is, a new
    key is appended. *)
Definition Map (V : Type) : Type := list (string * V).

Fixpoint get {V : Type} (k : string) (m : Map V) : option V :=
  match m with
  | [] => None
  | (k', v) :: r => if String.eqb k' k then Some v else get k r
  end.

Fixpoint set {V : Type} (k : string) (v : V) (m : Map V) : Map V :=
  match m with
  | [] => [(k, v)]
  | (k', v') :: r =>
      if String.eqb k' k then (k', v) :: r else (k', v') :: set k v r
  end.

Definition delete {V : Type} (k : string) (m : Map V) : Map V :=
  List.filter (fun p => negb (String.eqb (fst p) k)) m.

Definition values {V : Type} (m : Map V) : list V := List.map snd m.

Definition keys {V : Type} (m : Map V) : list string := List.map fst m.

Definition size {V : Type} (m : Map V) : nat := length m.

End Js.
Import Js.

(** ** Records of [types.ts], as the store and the handlers use them *)

Module User.
Record t : Type := mk {
  id : string;
  username : string;
  avatar : string;
  isOnline : bool;
  lastSeen : Date;
  createdAt : Date
}.
End User.

(** [Partial<User>]: the fields an update carries. *)
Module PartialUser.
Record t : Type := mk {
  id : option string;
  username : option string;
  avatar : option string;
  isOnline : option bool;
  lastSeen : option Date;
  createdAt : option Date
}.
End PartialUser.

(** [{ ...user, ...updates }] *)
Definition spread (user : User.t) (updates : PartialUser.t) : User.t :=
  {| User.id := default (User.id user) (PartialUser.id updates);
     User.username := default (User.username user) (PartialUser.username updates);
     User.avatar := default (User.avatar user) (PartialUser.avatar updates);
     User.isOnline := default (User.isOnline user) (PartialUser.isOnline updates);
     User.lastSeen := default (User.lastSeen user) (PartialUser.lastSeen updates);
     User.createdAt := default (User.createdAt user) (PartialUser.createdAt updates) |}.

(** A message; [U] is what its [user] field holds: a reference to a [User]
    object while in memory, the serialized object once written to disk or
    sent over a socket. *)
Module Message.
Record t (U : Type) : Type := mk {
  id : string;
  content : JsVal;
  type : JsVal;
  userId : string;
  user : U;
  fileUrl : option string;
  fileName : option string;
  fileSize : option Z;
  fileMimeType : option string;
  createdAt : Date
}.
Arguments mk {U}.
Arguments id {U}.
Arguments content {U}.
Arguments type {U}.
Arguments userId {U}.
Arguments user {U}.
Arguments fileUrl {U}.
Arguments fileName {U}.
Arguments fileSize {U}.
Arguments fileMimeType {U}.
Arguments createdAt {U}.

Definition map_user {U V : Type} (f : U -> V) (m : t U) : t V :=
  mk (id m) (content m) (type m) (userId m) (f (user m))
     (fileUrl m) (fileName m) (fileSize m) (fileMimeType m) (createdAt m).
End Message.

Module Room.
Record t : Type := mk {
  id : string;
  name : string;
  description : option string;
  isPrivate : bool;
  createdAt : Date
}.
End Room.

(** The argument of [createMessage]. [userId] is [None] for [undefined]. *)
Module MessageData.
Record t : Type := mk {
  content : JsVal;
  type : JsVal;
  userId : option string;
  fileUrl : option string;
  fileName : option string;
  fileSize : option Z;
  fileMimeType : option string
}.
End MessageData.

(** ** The store

    [User] objects are shared: [users] and the [user] field of a message
    point to the same object. The object heap is explicit, a reference is an
    index into it, and allocation appends. *)

Definition ref : Type := nat.

(** A message as [JSON.stringify] writes it: the [user] reference is
    followed at that moment ([None] only for a reference that points outside
    the heap, which no execution creates). *)
Definition MessageJson : Type := Message.t (option User.t).

(** The three files of the data directory; a file that does not exist reads
    as the empty collection. [writable = false] is a data directory in which
    [fs.writeFileSync] throws. *)
Record Disk : Type := mkDisk {
  usersFile : list User.t;
  messagesFile : list MessageJson;
  roomsFile : list Room.t;
  writable : bool
}.

Record DataStore : Type := mkStore {
  heap : list User.t;
  users : Map ref;
  messages : list (Message.t ref);
  rooms : Map Room.t;
  disk : Disk
}.

(** The readings of the environment one call consumes: the clock, which
    the [new Date()] and [Date.now()] of one call read at the same instant,
    and [require('uuid').v4()]. *)
Record Env : Type := mkEnv {
  now : Z;
  uuid : string
}.

Definition deref (st : DataStore) (r : ref) : option User.t := heap st !! r.

Definition serialize (st : DataStore) (m : Message.t ref) : MessageJson :=
  Message.map_user (deref st) m.

(** [Array.from(this.users.values())], each reference followed. *)
Definition userObjects (st : DataStore) : list User.t :=
  omap (deref st) (values (users st)).

(** [saveData]: each collection is rewritten whole; the messages file
    receives [this.messages.slice(-1000)]. A write that throws is caught and
    logged, and leaves the files as they were. *)
Definition saveData (st : DataStore) : DataStore :=
  if writable (disk st) then
    mkStore (heap st) (users st) (messages st) (rooms st)
      (mkDisk (userObjects st)
              (List.map (serialize st) (slice (-1000) (messages st)))
              (values (rooms st))
              true)
  else st.

(** [getRecentMessages(limit)]: [this.messages.slice(-limit)] *)
Definition getRecentMessages (st : DataStore) (limit : Z) : list (Message.t ref) :=
  slice (- limit) (messages st).


(** ** User methods *)

(** [findUserByUsername]: the first object, in insertion order, whose
    [username] is the one asked for. *)
Definition findUserByUsername (st : DataStore) (name : string) : option ref :=
  List.find
    (fun r => match deref st r with
              | Some user => String.eqb (User.username user) name
              | None => false
              end)
    (values (users st)).

Definition findUserById (st : DataStore) (id : string) : option ref :=
  get id (users st).

(** The object that [createUser] builds. *)
Definition newUser (username avatar : string) (env : Env) : User.t :=
  {| User.id := uuid env;
     User.username := username;
     User.avatar := avatar;
     User.isOnline := true;
     User.lastSeen := DateMs (now env);
     User.createdAt := DateMs (now env) |}.

(** [createUser]: a new object, stored under its own [id]. *)
Definition createUser (st : DataStore) (username avatar : string) (env : Env)
  : ref * DataStore :=
  let user := newUser username avatar env in
  let r := length (heap st) in
  (r, saveData (mkStore (heap st ++ [user]) (set (User.id user) r (users st))
                        (messages st) (rooms st) (disk st))).

(** [updateUser]: [null] for an unknown [id]; otherwise a new object
    [{ ...user, ...updates }] replaces the reference held under [id], and the
    object it replaces is left as it is. A reference that points outside the
    heap is read as [undefined]. *)
Definition updateUser (st : DataStore) (id : string) (updates : PartialUser.t)
  : option ref * DataStore :=
  match get id (users st) ≫= deref st with
  | None => (None, st)
  | Some user =>
      let updatedUser := spread user updates in
      let r := length (heap st) in
      (Some r, saveData (mkStore (heap st ++ [updatedUser]) (set id r (users st))
                                 (messages st) (rooms st) (disk st)))
  end.

(** ** Message methods *)

(** The tail of [createMessage], common to both stores: push, keep the last
    1000 in memory, save. *)
Definition pushMessage (st : DataStore) (message : Message.t ref) : DataStore :=
  let pushed := messages st ++ [message] in
  let kept := if (1000 <? length pushed)%nat then slice (-1000) pushed else pushed in
  saveData (mkStore (heap st) (users st) kept (rooms st) (disk st)).

(** [createMessage] of [src/dist/storage/DataStore.js]. *)
Module DistStore.

Definition createMessage (st : DataStore) (messageData : MessageData.t) (env : Env)
  : option (Message.t ref) * DataStore :=
  match MessageData.userId messageData with
  | None => (None, st)
  | Some userId =>
      match get userId (users st) with
      | None => (None, st)
      | Some user =>
          let message :=
            {| Message.id := uuid env;
               Message.content := MessageData.content messageData;
               Message.type := MessageData.type messageData;
               Message.userId := userId;
               Message.user := user;
               Message.fileUrl := MessageData.fileUrl messageData;
               Message.fileName := MessageData.fileName messageData;
               Message.fileSize := MessageData.fileSize messageData;
               Message.fileMimeType := MessageData.fileMimeType messageData;
               Message.createdAt := DateMs (now env) |} in
          (Some message, pushMessage st message)
      end
  end.

End DistStore.

(** [createMessage] of the TypeScript [DataStore]. *)
Module TsStore.

(** [content.trim()], reached only with a string. *)
Definition trimmed (content : JsVal) : JsVal :=
  match content with
  | JStr s => JStr (trim s)
  | other => other
  end.

Definition createMessage (st : DataStore) (messageData : MessageData.t) (env : Env)
  : option (Message.t ref) * DataStore :=
  if negb (truthy (MessageData.content messageData))
     || negb (is_string (MessageData.content messageData))
  then (None, st)
  else
    match MessageData.userId messageData with
    | None => (None, st)
    | Some userId =>
        if String.eqb userId "" then (None, st)
        else
          match get userId (users st) with
          | None => (None, st)
          | Some user =>
              let message :=
                {| Message.id := uuid env;
                   Message.content := trimmed (MessageData.content messageData);
                   Message.type := js_or (MessageData.type messageData) (JStr "text");
                   Message.userId := userId;
                   Message.user := user;
                   Message.fileUrl := MessageData.fileUrl messageData;
                   Message.fileName := MessageData.fileName messageData;
                   Message.fileSize := MessageData.fileSize messageData;
                   Message.fileMimeType := MessageData.fileMimeType messageData;
                   Message.createdAt := DateMs (now env) |} in
              (Some message, pushMessage st message)
          end
    end.

End TsStore.

(** ** Rooms and retention *)

Definition createRoom (st : DataStore) (name : string) (description : option string)
  (isPrivate : option bool) (env : Env) : Room.t * DataStore :=
  let room :=
    {| Room.id := uuid env;
       Room.name := name;
       Room.description := description;
       Room.isPrivate := default false isPrivate;
       Room.createdAt := DateMs (now env) |} in
  (room, saveData (mkStore (heap st) (users st) (messages st)
                           (set (Room.id room) room (rooms st)) (disk st))).

Definition getAllRooms (st : DataStore) : list Room.t := values (rooms st).

Definition oneWeek : Z := 7 * 24 * 60 * 60 * 1000.

(** [cleanup]: keeps the messages with [createdAt > oneWeekAgo]; the sweep of
    users is commented out in the source. *)
Definition cleanup (st : DataStore) (env : Env) : DataStore :=
  let oneWeekAgo := DateMs (now env - oneWeek) in
  saveData (mkStore (heap st) (users st)
                    (List.filter (fun msg => date_gt (Message.createdAt msg) oneWeekAgo)
                                 (messages st))
                    (rooms st) (disk st)).

(** ** The server: sessions, rooms and emitted events *)

Module FileInfo.
Record t : Type := mk {
  filename : string;
  originalname : string;
  size : Z;
  mimetype : string;
  url : string
}.
End FileInfo.

(** The payload of [join]. *)
Module JoinData.
Record t : Type := mk {
  username : string;
  avatar : string
}.
End JoinData.

(** The payload of [sendMessage], whose fields are read untyped. A handler
    receives an [option SendData.t]: [None] is a payload of [undefined] or
    [null], on which every read of a field throws; a payload that is no
    object (a string, a number) has none of the fields, and is the record
    whose fields are all [undefined]. *)
Module SendData.
Record t : Type := mk {
  text : JsVal;
  content : JsVal;
  type : JsVal;
  file : option FileInfo.t
}.
End SendData.

(** [{ ...user, socketId }]. [user] is [None] when the spread object was
    [null], which leaves an object with a [socketId] only. *)
Module SocketUser.
Record t : Type := mk {
  user : option User.t;
  socketId : string
}.
Definition id (su : t) : option string := User.id <$> user su.
End SocketUser.

(** The events the server emits, by name, with what they carry. *)
Module Ev.
Inductive Payload : Type :=
| recentMessages (msgs : list MessageJson)
| onlineUsers (us : list SocketUser.t)
| joinSuccess (user : SocketUser.t) (us : list SocketUser.t) (msgs : list MessageJson)
| userJoined (user : SocketUser.t) (us : list SocketUser.t)
| newMessage (message : MessageJson)
| userTyping (user : SocketUser.t) (isTyping : bool)
| userLeft (user : SocketUser.t) (us : list SocketUser.t)
| error (message : string).
End Ev.

(** One call of [emit]: the sockets it reaches, in the order of the room,
    and what it carries. *)
Record Emit : Type := mkEmit {
  recipients : list string;
  payload : Ev.Payload
}.

(** [sockets] are the connected sockets of the namespace, [general] the
    members of the room of that name, [trace] the calls of [emit] so far,
    oldest first. *)
Record World : Type := mkWorld {
  store : DataStore;
  connectedUsers : Map SocketUser.t;
  sockets : list string;
  general : list string;
  trace : list Emit
}.

Definition mem (sid : string) (l : list string) : bool :=
  List.existsb (String.eqb sid) l.

Definition add (sid : string) (l : list string) : list string :=
  if mem sid l then l else l ++ [sid].

Definition remove (sid : string) (l : list string) : list string :=
  List.filter (fun s => negb (String.eqb s sid)) l.

Definition setStore (st : DataStore) (w : World) : World :=
  mkWorld st (connectedUsers w) (sockets w) (general w) (trace w).

(** [socket.emit(...)] *)
Definition socket_emit (sid : string) (p : Ev.Payload) (w : World) : World :=
  mkWorld (store w) (connectedUsers w) (sockets w) (general w)
          (trace w ++ [mkEmit [sid] p]).

(** [socket.to('general').emit(...)]: the room without the socket itself. *)
Definition socket_to_general_emit (sid : string) (p : Ev.Payload) (w : World) : World :=
  mkWorld (store w) (connectedUsers w) (sockets w) (general w)
          (trace w ++ [mkEmit (remove sid (general w)) p]).

(** [io.to('general').emit(...)] *)
Definition io_to_general_emit (p : Ev.Payload) (w : World) : World :=
  mkWorld (store w) (connectedUsers w) (sockets w) (general w)
          (trace w ++ [mkEmit (general w) p]).

(** [io.emit(...)] *)
Definition io_emit (p : Ev.Payload) (w : World) : World :=
  mkWorld (store w) (connectedUsers w) (sockets w) (general w)
          (trace w ++ [mkEmit (sockets w) p]).

(** [io.on('connection', ...)]: the socket is in the namespace from then on. *)
Definition connection (sid : string) (w : World) : World :=
  mkWorld (store w) (connectedUsers w) (add sid (sockets w)) (general w) (trace w).

(** What Socket.IO does to a closing socket before it fires [disconnect]:
    the socket leaves its rooms and the namespace. *)
Definition socket_close (sid : string) (w : World) : World :=
  mkWorld (store w) (connectedUsers w) (remove sid (sockets w))
          (remove sid (general w)) (trace w).

(** [{ isOnline: false, lastSeen: new Date() }] *)
Definition offline (env : Env) : PartialUser.t :=
  {| PartialUser.id := None;
     PartialUser.username := None;
     PartialUser.avatar := None;
     PartialUser.isOnline := Some false;
     PartialUser.lastSeen := Some (DateMs (now env));
     PartialUser.createdAt := None |}.

(** [{ isOnline: true, avatar: userData.avatar, lastSeen: new Date() }] *)
Definition online (avatar : string) (env : Env) : PartialUser.t :=
  {| PartialUser.id := None;
     PartialUser.username := None;
     PartialUser.avatar := Some avatar;
     PartialUser.isOnline := Some true;
     PartialUser.lastSeen := Some (DateMs (now env));
     PartialUser.createdAt := None |}.

(** The first lines of every [join] handler: look the user up by name,
    create or update it, register the session, join the room. The result
    is the user ([None] when [updateUser] returned [null]), the session
    object and the world after [socket.join('general')]. *)
Definition join_register (sid : string) (userData : JoinData.t) (env : Env) (w : World)
  : option ref * SocketUser.t * World :=
  let st := store w in
  let '(user, st1) :=
    match findUserByUsername st (JoinData.username userData) with
    | None =>
        let '(r, st') :=
          createUser st (JoinData.username userData) (JoinData.avatar userData) env in
        (Some r, st')
    | Some found =>
        match deref st found with
        | Some user =>
            updateUser st (User.id user) (online (JoinData.avatar userData) env)
        | None => (None, st)
        end
    end in
  let socketUser :=
    {| SocketUser.user := user ≫= deref st1; SocketUser.socketId := sid |} in
  (user, socketUser,
   mkWorld st1 (set sid socketUser (connectedUsers w)) (sockets w)
           (add sid (general w)) (trace w)).

Definition joinError : Ev.Payload := Ev.error "Error al unirse al chat".
Definition sendError : Ev.Payload := Ev.error "Error al enviar mensaje".

(** [dataStore.getRecentMessages(50)], as a payload serializes it. *)
Definition recent50 (w : World) : list MessageJson :=
  List.map (serialize (store w)) (getRecentMessages (store w) 50).

(** [dist/server.js], and the [server.ts] it was transpiled from (the third
    one of the listing). *)
Module DistServer.

(** [join]. The first read of [user.username], in the debug output that
    precedes the emits, throws when [user] is [null]; the [catch] then
    emits [error] to the socket. *)
Definition join (sid : string) (userData : JoinData.t) (env : Env) (w : World) : World :=
  let '(user, socketUser, w1) := join_register sid userData env w in
  let recentMessages := recent50 w1 in
  let currentOnlineUsers := values (connectedUsers w1) in
  match user with
  | None => socket_emit sid joinError w1
  | Some _ =>
      let w2 := socket_emit sid (Ev.recentMessages recentMessages) w1 in
      let w3 := socket_emit sid (Ev.onlineUsers currentOnlineUsers) w2 in
      let w4 := socket_emit sid
                  (Ev.joinSuccess socketUser currentOnlineUsers recentMessages) w3 in
      socket_to_general_emit sid (Ev.userJoined socketUser currentOnlineUsers) w4
  end.


(** [sendMessage]. The session is looked up first. Without a payload the
    read of [messageData.content] throws before [createMessage] is called.
    After the broadcast the handler logs
    [messageData.content.substring(0, 50)], which throws unless the content
    is a string. In both cases the [catch] emits [error] to the sender. *)
Definition sendMessage (sid : string) (messageData : option SendData.t) (env : Env)
  (w : World) : World :=
  match get sid (connectedUsers w), messageData with
  | None, _ => w
  | Some user, None => socket_emit sid sendError w
  | Some user, Some messageData =>
      let '(message, st1) :=
        DistStore.createMessage (store w)
          {| MessageData.content := SendData.content messageData;
             MessageData.type := SendData.type messageData;
             MessageData.userId := SocketUser.id user;
             MessageData.fileUrl := FileInfo.url <$> SendData.file messageData;
             MessageData.fileName := FileInfo.originalname <$> SendData.file messageData;
             MessageData.fileSize := FileInfo.size <$> SendData.file messageData;
             MessageData.fileMimeType := FileInfo.mimetype <$> SendData.file messageData |}
          env in
      let w1 := setStore st1 w in
      match message with
      | None => w1
      | Some message =>
          let w2 := io_to_general_emit (Ev.newMessage (serialize st1 message)) w1 in
          if is_string (SendData.content messageData) then w2
          else socket_emit sid sendError w2
      end
  end.

Definition typing (sid : string) (isTyping : bool) (w : World) : World :=
  match get sid (connectedUsers w) with
  | None => w
  | Some user => socket_to_general_emit sid (Ev.userTyping user isTyping) w
  end.

(** The [disconnect] handler. [user.id] is [undefined] for a session
    without user fields, and no key of [users] is. *)
Definition disconnect (sid : string) (env : Env) (w : World) : World :=
  match get sid (connectedUsers w) with
  | None => w
  | Some user =>
      let st1 :=
        match SocketUser.id user with
        | None => store w
        | Some id =>
            snd (updateUser (store w) id (offline env))
        end in
      let w1 := mkWorld st1 (delete sid (connectedUsers w)) (sockets w)
                        (general w) (trace w) in
      let onlineUsers := values (connectedUsers w1) in
      io_emit (Ev.userLeft user onlineUsers) w1
  end.

(** A socket closing: Socket.IO takes it out of the rooms and of the
    namespace, then runs the handler. *)
Definition on_disconnect (sid : string) (env : Env) (w : World) : World :=
  disconnect sid env (socket_close sid w).

(** What the process reacts to: the four socket events, a new connection,
    and the hourly timer that calls [cleanup]. *)
Inductive Event : Type :=
| evConnection (sid : string)
| evJoin (sid : string) (userData : JoinData.t)
| evSendMessage (sid : string) (messageData : option SendData.t)
| evTyping (sid : string) (isTyping : bool)
| evDisconnect (sid : string)
| evCleanup.

Definition step (w : World) (e : Event * Env) : World :=
  match e with
  | (evConnection sid, _) => connection sid w
  | (evJoin sid userData, env) => join sid userData env w
  | (evSendMessage sid messageData, env) => sendMessage sid messageData env w
  | (evTyping sid isTyping, _) => typing sid isTyping w
  | (evDisconnect sid, env) => on_disconnect sid env w
  | (evCleanup, env) => setStore (cleanup (store w) env) w
  end.

(** Events are handled one after the other, each to completion. *)
Definition run (evs : list (Event * Env)) (w : World) : World :=
  fold_left step evs w.

End DistServer.

(** The first [server.ts] of the listing: [join] without the debug output,
    [sendMessage] with the normalization of the payload. It is linked with
    the TypeScript store. *)
Module ServerV1.

(** [join]: as in [DistServer], but the first read of [user.username] is
    the final log line, after the four emits. *)
Definition join (sid : string) (userData : JoinData.t) (env : Env) (w : World) : World :=
  let '(user, socketUser, w1) := join_register sid userData env w in
  let recentMessages := recent50 w1 in
  let currentOnlineUsers := values (connectedUsers w1) in
  let w2 := socket_emit sid (Ev.recentMessages recentMessages) w1 in
  let w3 := socket_emit sid (Ev.onlineUsers currentOnlineUsers) w2 in
  let w4 := socket_emit sid
              (Ev.joinSuccess socketUser currentOnlineUsers recentMessages) w3 in
  let w5 := socket_to_general_emit sid (Ev.userJoined socketUser currentOnlineUsers) w4 in
  match user with
  | None => socket_emit sid joinError w5
  | Some _ => w5
  end.

(** [normalizedData], or why there is none. [String()] is reached with a
    truthy value only. *)
Inductive Normalized : Type :=
| Throws
| Missing
| Normal (content : string) (type : JsVal) (file : option FileInfo.t).

Definition normalize (messageData : SendData.t) : Normalized :=
  if truthy (SendData.text messageData) then
    match toString (js_or (SendData.text messageData) (JStr "")) with
    | Some content =>
        Normal content (js_or (SendData.type messageData) (JStr "text"))
               (SendData.file messageData)
    | None => Throws
    end
  else if truthy (SendData.content messageData) then
    match toString (js_or (SendData.content messageData) (JStr "")) with
    | Some content =>
        Normal content (js_or (SendData.type messageData) (JStr "text"))
               (SendData.file messageData)
    | None => Throws
    end
  else Missing.

(** [sendMessage]. The normalization and the validation come before the
    [try]: the result is [None] when one of them throws, on a payload of
    [undefined] or [null] at the read of [messageData.text], or on a value that
    [String()] cannot convert. The handler is an [async] function that nothing
    awaits, so its rejection is unhandled and ends the process. *)
Definition sendMessage (sid : string) (messageData : option SendData.t) (env : Env)
  (w : World) : option World :=
  match messageData with
  | None => None
  | Some messageData =>
      match normalize messageData with
      | Throws => None
      | Missing => Some (socket_emit sid (Ev.error "Contenido del mensaje es requerido") w)
      | Normal content type file =>
          if negb (truthy (JStr content)) || negb (is_string (JStr content))
             || String.eqb (trim content) ""
          then Some (socket_emit sid
                       (Ev.error "Contenido del mensaje no puede estar vacío") w)
          else
            match get sid (connectedUsers w) with
            | None => Some w
            | Some user =>
                let '(message, st1) :=
                  TsStore.createMessage (store w)
                    {| MessageData.content := JStr content;
                       MessageData.type := type;
                       MessageData.userId := SocketUser.id user;
                       MessageData.fileUrl := FileInfo.url <$> file;
                       MessageData.fileName := FileInfo.originalname <$> file;
                       MessageData.fileSize := FileInfo.size <$> file;
                       MessageData.fileMimeType := FileInfo.mimetype <$> file |}
                    env in
                let w1 := setStore st1 w in
                match message with
                | None => Some w1
                | Some message =>
                    Some (io_to_general_emit (Ev.newMessage (serialize st1 message)) w1)
                end
            end
      end
  end.

End ServerV1.

(** The second [server.ts] of the listing. *)
Module ServerV2.

(** [join]: [userJoined] goes to every socket with [io.emit], then
    [recentMessages] to the joining socket; the final log line reads
    [user.username]. *)
Definition join (sid : string) (userData : JoinData.t) (env : Env) (w : World) : World :=
  let '(user, socketUser, w1) := join_register sid userData env w in
  let onlineUsers := values (connectedUsers w1) in
  let w2 := io_emit (Ev.userJoined socketUser onlineUsers) w1 in
  let recentMessages := recent50 w2 in
  let w3 := socket_emit sid (Ev.recentMessages recentMessages) w2 in
  match user with
  | None => socket_emit sid joinError w3
  | Some _ => w3
  end.

End ServerV2.

(** ** The public interface of the store, as one type of calls *)

Inductive StoreImpl : Type := Dist | Ts.

Definition createMessageOf (impl : StoreImpl)
  : DataStore -> MessageData.t -> Env -> option (Message.t ref) * DataStore :=
  match impl with
  | Dist => DistStore.createMessage
  | Ts => TsStore.createMessage
  end.

Inductive StoreOp : Type :=
| opFindUserByUsername (name : string)
| opFindUserById (id : string)
| opCreateUser (username avatar : string)
| opUpdateUser (id : string) (updates : PartialUser.t)
| opGetRecentMessages (limit : Z)
| opCreateMessage (impl : StoreImpl) (messageData : MessageData.t)
| opCreateRoom (name : string) (description : option string) (isPrivate : option bool)
| opGetAllRooms
| opCleanup.

(** The store after a call; the four queries leave it as it is. *)
Definition exec (st : DataStore) (c : StoreOp * Env) : DataStore :=
  match c with
  | (opFindUserByUsername _, _) => st
  | (opFindUserById _, _) => st
  | (opCreateUser username avatar, env) => snd (createUser st username avatar env)
  | (opUpdateUser id updates, _) => snd (updateUser st id updates)
  | (opGetRecentMessages _, _) => st
  | (opCreateMessage impl messageData, env) => snd (createMessageOf impl st messageData env)
  | (opCreateRoom name description isPrivate, env) =>
      snd (createRoom st name description isPrivate env)
  | (opGetAllRooms, _) => st
  | (opCleanup, env) => cleanup st env
  end.

Definition exec_all (cs : list (StoreOp * Env)) (st : DataStore) : DataStore :=
  fold_left exec cs st.

(** [createMessage] called on each element in turn; the results, oldest
    first, and the final store. *)
Fixpoint createAll (impl : StoreImpl) (ds : list (MessageData.t * Env)) (st : DataStore)
  : list (option (Message.t ref)) * DataStore :=
  match ds with
  | [] => ([], st)
  | (d, env) :: rest =>
      let '(m, st1) := createMessageOf impl st d env in
      let '(ms, st2) := createAll impl rest st1 in
      (m :: ms, st2)
  end.

(** ** Predicates of the statements *)

(** The history cap: at most 1000 messages in memory and in the file. *)
Definition capped (st : DataStore) : Prop :=
  (length (messages st) <= 1000)%nat /\ (length (messagesFile (disk st)) <= 1000)%nat.

(** Every reference held by [users] points into the heap. *)
Definition heap_closed (st : DataStore) : Prop :=
  Forall (fun p : string * ref => (snd p < length (heap st))%nat) (users st).

(** [users] as the code builds it: a [Map] has each key once, and every
    object is stored under its own [id]. *)
Definition store_wf (st : DataStore) : Prop :=
  NoDup (keys (users st)) /\
  Forall (fun p : string * ref =>
            exists user, deref st (snd p) = Some user /\ User.id user = fst p)
         (users st).

(** The user does not resolve: [users.get(userId)] is [undefined]. *)
Definition user_unknown (st : DataStore) (d : MessageData.t) : Prop :=
  MessageData.userId d ≫= (fun k => get k (users st)) = None.

(** [!content || typeof content !== 'string'] *)
Definition content_missing (d : MessageData.t) : bool :=
  negb (truthy (MessageData.content d)) || negb (is_string (MessageData.content d)).

(** The content is a string with nothing left after trimming, or no string
    at all. *)
Definition blank (v : JsVal) : Prop :=
  match v with
  | JStr s => trim s = ""
  | _ => True
  end.

(** The events of a trace that reach socket [sid], oldest first. *)
Definition received (sid : string) (tr : list Emit) : list Ev.Payload :=
  List.map payload (List.filter (fun e => mem sid (recipients e)) tr).

(** What a handler emitted: the trace after, less the trace before. *)
Definition emitted (w w' : World) : list Emit :=
  drop (length (trace w)) (trace w').

(** The name of an emitted event. *)
Definition is_recentMessages (p : Ev.Payload) : bool :=
  match p with Ev.recentMessages _ => true | _ => false end.

Definition is_onlineUsers (p : Ev.Payload) : bool :=
  match p with Ev.onlineUsers _ => true | _ => false end.

Definition is_joinSuccess (p : Ev.Payload) : bool :=
  match p with Ev.joinSuccess _ _ _ => true | _ => false end.

Definition is_userJoined (p : Ev.Payload) : bool :=
  match p with Ev.userJoined _ _ => true | _ => false end.

(** The [i]-th emit of [es] reaches socket [sid] with an event of the given
    name. *)
Definition reaches (sid : string) (name : Ev.Payload -> bool) (es : list Emit) (i : nat)
  : Prop :=
  exists e, es !! i = Some e /\ mem sid (recipients e) = true /\ name (payload e) = true.

(** The order of a join as the specification words it, on the emits of one
    handler call: [A] is reached by [recentMessages], then [onlineUsers],
    then [joinSuccess]; every [userJoined] that reaches [B] comes after these
    three; and no [userJoined] reaches [A]. *)
Definition join_order (A B : string) (es : list Emit) : Prop :=
  (exists i j k,
      (i < j < k)%nat
      /\ reaches A is_recentMessages es i
      /\ reaches A is_onlineUsers es j
      /\ reaches A is_joinSuccess es k
      /\ forall l, reaches B is_userJoined es l -> (k < l)%nat)
  /\ forall l, ~ reaches A is_userJoined es l.

(** A [join] handler keeps the order: for every socket [A] that joins while
    a socket [B] is in the room. *)
Definition keeps_join_order (join : string -> JoinData.t -> Env -> World -> World) : Prop :=
  forall A B userData env w,
    store_wf (store w) ->
    mem A (sockets w) = true -> mem B (general w) = true -> B <> A ->
    join_order A B (emitted w (join A userData env w)).

(** The user stored under [uid] holds the name [name], and no other entry of
    [users] does. *)
Definition owns (st : DataStore) (name uid : string) : Prop :=
  store_wf st
  /\ (exists r user,
        get uid (users st) = Some r /\ deref st r = Some user
        /\ User.username user = name)
  /\ Forall (fun p : string * ref =>
               forall user, deref st (snd p) = Some user ->
                            User.username user = name -> fst p = uid)
            (users st).

(** The record that [users] holds under [id]. *)
Definition record (st : DataStore) (id : string) : option User.t :=
  findUserById st id ≫= deref st.

(** The rejection rule as the specification words it, for a given
    [createMessage]: a text message whose content is blank, or an unknown
    user, gives [null] and leaves the store as it was. *)
Definition rejects_invalid
  (createMessage : DataStore -> MessageData.t -> Env -> option (Message.t ref) * DataStore)
  : Prop :=
  forall st d env,
    (MessageData.type d = JStr "text" /\ blank (MessageData.content d))
    \/ user_unknown st d ->
    fst (createMessage st d env) = None
    /\ messages (snd (createMessage st d env)) = messages st.

(** When [createMessage] of a store gives up: the user does not resolve, or,
    in the TypeScript store, the content is missing. *)
Definition rejected (impl : StoreImpl) (st : DataStore) (d : MessageData.t) : Prop :=
  user_unknown st d \/ (impl = Ts /\ content_missing d = true).

(** The guards of the TypeScript [createMessage]: the content is a
    non-empty string and [userId] is not empty. *)
Definition ts_accepts (d : MessageData.t) : bool :=
  negb (content_missing d)
  && match MessageData.userId d with
     | Some userId => negb (String.eqb userId "")
     | None => false
     end.

(** What the TypeScript [createMessage] stores in place of what it
    received: the content trimmed, [type || 'text']. *)
Definition ts_normal (d : MessageData.t) : MessageData.t :=
  {| MessageData.content := TsStore.trimmed (MessageData.content d);
     MessageData.type := js_or (MessageData.type d) (JStr "text");
     MessageData.userId := MessageData.userId d;
     MessageData.fileUrl := MessageData.fileUrl d;
     MessageData.fileName := MessageData.fileName d;
     MessageData.fileSize := MessageData.fileSize d;
     MessageData.fileMimeType := MessageData.fileMimeType d |}.

(** The drop rule as the specification words it, for a given [sendMessage]
    handler: without a session the handler returns, changes neither the store
    nor the sessions and emits nothing, to the sender or to anyone. A handler
    gives [None] when it throws past its [catch]. *)
Definition silent_without_session
  (sendMessage : string -> option SendData.t -> Env -> World -> option World) : Prop :=
  forall sid messageData env w,
    get sid (connectedUsers w) = None ->
    exists w',
      sendMessage sid messageData env w = Some w'
      /\ store w' = store w
      /\ connectedUsers w' = connectedUsers w
      /\ trace w' = trace w.

(** The handler of [dist/server.js], which throws nothing past its [catch]. *)
Definition dist_sendMessage (sid : string) (messageData : option SendData.t) (env : Env)
  (w : World) : option World :=
  Some (DistServer.sendMessage sid messageData env w).

(** What the first [server.ts] converts to the content: [text] when it is
    truthy, [content] otherwise. *)
Definition v1_source (messageData : SendData.t) : JsVal :=
  if truthy (SendData.text messageData) then SendData.text messageData
  else SendData.content messageData.



(** ** The constructor: [loadData]

    The files hold what [saveData] wrote: a date is there as its ISO string,
    and an invalid date as [null]. *)

(** [new Date(x)] of a date read back from a file: the ISO string gives the
    date it was written from, [null] gives the epoch. *)
Definition reparse (d : Date) : Date :=
  match d with
  | DateMs ms => DateMs ms
  | InvalidDate => DateMs 0
  end.

(** [{ ...user, createdAt: new Date(user.createdAt),
       lastSeen: new Date(user.lastSeen), isOnline: false }] *)
Definition loadedUser (user : User.t) : User.t :=
  {| User.id := User.id user;
     User.username := User.username user;
     User.avatar := User.avatar user;
     User.isOnline := false;
     User.lastSeen := reparse (User.lastSeen user);
     User.createdAt := reparse (User.createdAt user) |}.

(** One step of [usersData.forEach]: [this.users.set(user.id, {...})]. *)
Definition loadUser (st : DataStore) (user : User.t) : DataStore :=
  mkStore (heap st ++ [loadedUser user])
          (set (User.id user) (length (heap st)) (users st))
          (messages st) (rooms st) (disk st).

(** One step of [messagesData.map]: [{ ...msg, createdAt: new Date(...) }].
    The [user] of the entry is an object of its own, parsed with the entry.
    [None] for an entry without [user], which has no counterpart in memory
    here; [saveData] writes none from messages whose references are
    allocated. *)
Definition loadMessage (h : list User.t) (msg : MessageJson)
  : option (Message.t ref * list User.t) :=
  match Message.user msg with
  | None => None
  | Some user =>
      Some ({| Message.id := Message.id msg;
               Message.content := Message.content msg;
               Message.type := Message.type msg;
               Message.userId := Message.userId msg;
               Message.user := length h;
               Message.fileUrl := Message.fileUrl msg;
               Message.fileName := Message.fileName msg;
               Message.fileSize := Message.fileSize msg;
               Message.fileMimeType := Message.fileMimeType msg;
               Message.createdAt := reparse (Message.createdAt msg) |},
            h ++ [user])
  end.

Fixpoint loadMessages (msgs : list MessageJson) (h : list User.t)
  : option (list (Message.t ref) * list User.t) :=
  match msgs with
  | [] => Some ([], h)
  | msg :: rest =>
      match loadMessage h msg with
      | None => None
      | Some (m, h1) =>
          match loadMessages rest h1 with
          | None => None
          | Some (ms, h2) => Some (m :: ms, h2)
          end
      end
  end.

(** One step of [roomsData.forEach]. *)
Definition loadRoom (rs : Map Room.t) (room : Room.t) : Map Room.t :=
  set (Room.id room)
      {| Room.id := Room.id room;
         Room.name := Room.name room;
         Room.description := Room.description room;
         Room.isPrivate := Room.isPrivate room;
         Room.createdAt := reparse (Room.createdAt room) |}
      rs.

(** [new DataStore()]: empty collections, then [loadData]: users, messages
    and rooms, in that order, from the three files. *)
Definition loadData (d : Disk) : option DataStore :=
  let st1 := fold_left loadUser (usersFile d) (mkStore [] [] [] [] d) in
  match loadMessages (messagesFile d) (heap st1) with
  | None => None
  | Some (ms, h) =>
      Some (mkStore h (users st1) ms (fold_left loadRoom (roomsFile d) []) d)
  end.

(** ** The third [server.ts], linked with the TypeScript store

    Its [join], [typing] and [disconnect] are those of [DistServer]; so is
    the text of its [sendMessage], which the second [server.ts] shares. *)
Module ServerV3.

Definition sendMessage (sid : string) (messageData : option SendData.t) (env : Env)
  (w : World) : World :=
  match get sid (connectedUsers w), messageData with
  | None, _ => w
  | Some user, None => socket_emit sid sendError w
  | Some user, Some messageData =>
      let '(message, st1) :=
        TsStore.createMessage (store w)
          {| MessageData.content := SendData.content messageData;
             MessageData.type := SendData.type messageData;
             MessageData.userId := SocketUser.id user;
             MessageData.fileUrl := FileInfo.url <$> SendData.file messageData;
             MessageData.fileName := FileInfo.originalname <$> SendData.file messageData;
             MessageData.fileSize := FileInfo.size <$> SendData.file messageData;
             MessageData.fileMimeType := FileInfo.mimetype <$> SendData.file messageData |}
          env in
      let w1 := setStore st1 w in
      match message with
      | None => w1
      | Some message =>
          let w2 := io_to_general_emit (Ev.newMessage (serialize st1 message)) w1 in
          if is_string (SendData.content messageData) then w2
          else socket_emit sid sendError w2
      end
  end.

End ServerV3.

(** ** The read-only routes *)

(** An entry of [GET /api/users/online]; a field is [None] when the session
    object does not have it. *)
Module OnlineUser.
Record t : Type := mk {
  id : option string;
  username : option string;
  avatar : option string;
  isOnline : bool
}.
End OnlineUser.

(** [GET /api/messages] *)
Definition apiMessages (w : World) : list MessageJson :=
  List.map (serialize (store w)) (getRecentMessages (store w) 100).

(** [GET /api/users/online] *)
Definition apiUsersOnline (w : World) : list OnlineUser.t :=
  List.map (fun user : SocketUser.t =>
              {| OnlineUser.id := User.id <$> SocketUser.user user;
                 OnlineUser.username := User.username <$> SocketUser.user user;
                 OnlineUser.avatar := User.avatar <$> SocketUser.user user;
                 OnlineUser.isOnline := true |})
           (values (connectedUsers w)).

(** The two counters of [GET /api/stats] that come from the state:
    [onlineUsers] and [totalMessages]. *)
Definition apiStats (w : World) : nat * nat :=
  (size (connectedUsers w), length (getRecentMessages (store w) 1000)).

(** ** Predicates of the further statements *)

(** The files are the snapshot of the memory. *)
Definition synced (st : DataStore) : Prop :=
  usersFile (disk st) = userObjects st
  /\ messagesFile (disk st) = List.map (serialize st) (slice (-1000) (messages st))
  /\ roomsFile (disk st) = values (rooms st).

(** The [user] of every message of the history is an allocated object. *)
Definition snapshots_closed (st : DataStore) : Prop :=
  Forall (fun m : Message.t ref => is_Some (deref st (Message.user m))) (messages st).

(** The [userId] of every message of the history is a key of [users]. *)
Definition senders_known (st : DataStore) : Prop :=
  Forall (fun m : Message.t ref => is_Some (get (Message.userId m) (users st)))
         (messages st).

(** A message as it reads after a restart. *)
Definition reloaded (msg : MessageJson) : MessageJson :=
  {| Message.id := Message.id msg;
     Message.content := Message.content msg;
     Message.type := Message.type msg;
     Message.userId := Message.userId msg;
     Message.user := Message.user msg;
     Message.fileUrl := Message.fileUrl msg;
     Message.fileName := Message.fileName msg;
     Message.fileSize := Message.fileSize msg;
     Message.fileMimeType := Message.fileMimeType msg;
     Message.createdAt := reparse (Message.createdAt msg) |}.

(** Sessions, room and store fit together: every session is held under its
    own socket id and carries a user whose [id] is a key of [users], and a
    socket is in the room exactly when it has a session. *)
Definition registry_ok (w : World) : Prop :=
  store_wf (store w)
  /\ NoDup (keys (connectedUsers w))
  /\ Forall (fun p : string * SocketUser.t =>
               SocketUser.socketId (snd p) = fst p
               /\ exists user, SocketUser.user (snd p) = Some user
                               /\ is_Some (get (User.id user) (users (store w))))
            (connectedUsers w)
  /\ forall sid, mem sid (general w) = true <-> is_Some (get sid (connectedUsers w)).

(** Every user in memory is a user of the file, offline. *)
Definition loaded_offline (st : DataStore) : Prop :=
  Forall (fun p : string * ref =>
            exists f, deref st (snd p) = Some (loadedUser f))
         (users st).

Definition is_userLeft (p : Ev.Payload) : bool :=
  match p with Ev.userLeft _ _ => true | _ => false end.

(** The event is a [join] sent by socket [sid]. *)
Definition is_join_of (sid : string) (e : DistServer.Event * Env) : bool :=
  match fst e with
  | DistServer.evJoin s _ => String.eqb s sid
  | _ => false
  end.

(** Socket [sid] may receive the emit only if it is a [userLeft]. *)
Definition leave_only (sid : string) (e : Emit) : Prop :=
  mem sid (recipients e) = true -> is_userLeft (payload e) = true.

(** ** Sample data for the closed statements *)

Definition alice : User.t :=
  {| User.id := "u1"; User.username := "alice"; User.avatar := "a.png";
     User.isOnline := true; User.lastSeen := DateMs 1000; User.createdAt := DateMs 1000 |}.

Definition disk0 : Disk := mkDisk [] [] [] true.

(** A store that holds [alice] and no message. *)
Definition store0 : DataStore := mkStore [alice] [("u1", 0%nat)] [] [] disk0.

Definition env0 : Env := mkEnv 5000 "m1".
Definition env1 : Env := mkEnv 6000 "m2".


Definition worldB : World :=
  mkWorld store0 [("B", {| SocketUser.user := Some alice; SocketUser.socketId := "B" |})]
          ["B"] ["B"] [].


Definition hiPayload : SendData.t :=
  {| SendData.text := JUndefined; SendData.content := JStr "hi";
     SendData.type := JStr "text"; SendData.file := None |}.

Definition textData (content : JsVal) : MessageData.t :=
  {| MessageData.content := content; MessageData.type := JStr "text";
     MessageData.userId := Some "u1"; MessageData.fileUrl := None;
     MessageData.fileName := None; MessageData.fileSize := None;
     MessageData.fileMimeType := None |}.

(** [store0] after two messages of [alice]. *)
Definition store2 : DataStore :=
  snd (DistStore.createMessage
         (snd (DistStore.createMessage store0 (textData (JStr "hi")) env0))
         (textData (JStr "there")) env1).

(** 1001 messages of [alice], the [i]-th created at time [i]. *)
Definition burst : list (MessageData.t * Env) :=
  List.map (fun i => (textData (JStr "hi"), mkEnv (Z.of_nat i) "m")) (seq 1 1001).

Definition bob : JoinData.t :=
  {| JoinData.username := "bob"; JoinData.avatar := "b.png" |}.

(** [worldB] once socket ["A"] has connected. *)
Definition worldAB : World := connection "A" worldB.

Definition envJ : Env := mkEnv 7000 "u2".

(** A payload whose content is a number. *)
Definition numPayload : SendData.t :=
  {| SendData.text := JUndefined; SendData.content := JNum false "42";
     SendData.type := JStr "text"; SendData.file := None |}.

(** The text [hi] between two no-break spaces (U+00A0, in UTF-8 the bytes
    194 and 160). *)
Definition nbsp : string := String "194" (String "160" "").

Definition paddedHi : string := nbsp ++ "hi" ++ nbsp.

Definition paddedPayload : SendData.t :=
  {| SendData.text := JUndefined; SendData.content := JStr paddedHi;
     SendData.type := JUndefined; SendData.file := None |}.



(** A payload whose content is white space only. *)
Definition spacesPayload : SendData.t :=
  {| SendData.text := JUndefined; SendData.content := JStr "  ";
     SendData.type := JStr "text"; SendData.file := None |}.

(** A second socket joining under the name of [alice]. *)
Definition aliceAgain : JoinData.t :=
  {| JoinData.username := "alice"; JoinData.avatar := "a2.png" |}.

(** [worldB] once socket ["A"] has connected and joined as [alice] too. *)
Definition worldTwoTabs : World :=
  DistServer.run [(DistServer.evConnection "A", env0);
                  (DistServer.evJoin "A" aliceAgain, envJ)] worldB.

(** The store that [store2] left on disk, read at the next start. *)
Definition restarted : option DataStore := loadData (disk store2).

(** * Properties *)

(** ** [slice] and [getRecentMessages] *)

Lemma slice_neg_last {A : Type} (n : Z) (l : list A) :
  0 < n -> slice (- n) l = drop (length l - Z.to_nat n) l.
Proof.
  intros Hn. unfold slice.
  destruct (Z.ltb_spec (- n) 0) as [_|?]; [|lia].
  f_equal. lia.
Qed.

Lemma slice_neg_zero {A : Type} (l : list A) : slice (- 0) l = l.
Proof. unfold slice. simpl. rewrite Z.min_l by lia. reflexivity. Qed.

Lemma slice_neg_length {A : Type} (n : Z) (l : list A) :
  0 < n -> length (slice (- n) l) = Nat.min (Z.to_nat n) (length l).
Proof. intros Hn. rewrite slice_neg_last by done. rewrite length_drop. lia. Qed.

(** For a limit of at least 1 the result is the last [min limit length]
    messages, in the order of the history. *)
Lemma getRecentMessages_pos (st : DataStore) (limit : Z) :
  0 < limit ->
  getRecentMessages st limit
    = drop (length (messages st) - Z.to_nat limit) (messages st)
  /\ length (getRecentMessages st limit)
    = Nat.min (Z.to_nat limit) (length (messages st)).
Proof.
  intros Hl. unfold getRecentMessages. split.
  - by apply slice_neg_last.
  - by apply slice_neg_length.
Qed.

(** [slice(-0)] is [slice(0)]: a limit of 0 returns the whole history. *)
Lemma getRecentMessages_0 (st : DataStore) : getRecentMessages st 0 = messages st.
Proof. unfold getRecentMessages. apply slice_neg_zero. Qed.

(** C3, at the limit 0: on a history of two messages [getRecentMessages(0)]
    returns both of them, not the empty sequence that [min(0, 2)] most recent
    messages would be. *)
Theorem getRecentMessages_0_returns_history :
  length (messages store2) = 2%nat /\
  getRecentMessages store2 0 = messages store2 /\
  getRecentMessages store2 0 <> [].
Proof.
  split; [reflexivity|]. split; [apply getRecentMessages_0|].
  rewrite getRecentMessages_0. discriminate.
Qed.

(** ** [createMessage]: when it returns [null] *)

Lemma user_unknown_dist (st : DataStore) (d : MessageData.t) (env : Env) :
  user_unknown st d -> DistStore.createMessage st d env = (None, st).
Proof.
  unfold user_unknown, DistStore.createMessage.
  destruct (MessageData.userId d) as [k|]; simpl; [|done].
  intros ->. done.
Qed.

Lemma user_unknown_ts (st : DataStore) (d : MessageData.t) (env : Env) :
  user_unknown st d -> TsStore.createMessage st d env = (None, st).
Proof.
  unfold user_unknown, TsStore.createMessage.
  destruct (_ || _); [done|].
  destruct (MessageData.userId d) as [k|]; simpl; [|done].
  intros ->. by destruct (String.eqb k "").
Qed.

Lemma content_missing_ts (st : DataStore) (d : MessageData.t) (env : Env) :
  content_missing d = true -> TsStore.createMessage st d env = (None, st).
Proof. unfold content_missing, TsStore.createMessage. by intros ->. Qed.

(** A text message of three spaces from a known user is stored by both
    stores: as it is by the transpiled one, as the empty string by the
    TypeScript one. *)
Lemma whitespace_text_is_stored :
  Message.content <$> fst (DistStore.createMessage store0 (textData (JStr "   ")) env0)
    = Some (JStr "   ")
  /\ length (messages (snd (DistStore.createMessage store0 (textData (JStr "   ")) env0)))
    = 1%nat
  /\ Message.content <$> fst (TsStore.createMessage store0 (textData (JStr "   ")) env0)
    = Some (JStr "")
  /\ length (messages (snd (TsStore.createMessage store0 (textData (JStr "   ")) env0)))
    = 1%nat.
Proof. repeat split; reflexivity. Qed.

(** C1 as stated fails: neither store rejects a text message whose content
    is white space only. *)
Lemma createMessage_accepts_blank_text :
  ~ rejects_invalid DistStore.createMessage /\ ~ rejects_invalid TsStore.createMessage.
Proof.
  split; intros H;
    destruct (H store0 (textData (JStr "   ")) env0 (or_introl (conj eq_refl eq_refl)))
      as [Hnull _];
    discriminate Hnull.
Qed.

(** C1, amended: [createMessage] returns [null] and leaves the store as it
    was when [userId] does not resolve to a known user; the TypeScript store
    does so too when the content is not a non-empty string, whatever the
    type. *)
Theorem createMessage_null_unchanged
  (impl : StoreImpl) (st : DataStore) (d : MessageData.t) (env : Env) :
  rejected impl st d -> createMessageOf impl st d env = (None, st).
Proof.
  intros [H|[-> H]].
  - destruct impl; [by apply user_unknown_dist | by apply user_unknown_ts].
  - by apply content_missing_ts.
Qed.

Lemma createMessage_null_unchanged_witness :
  createMessageOf Dist store0
    {| MessageData.content := JStr "hi"; MessageData.type := JStr "text";
       MessageData.userId := Some "nobody"; MessageData.fileUrl := None;
       MessageData.fileName := None; MessageData.fileSize := None;
       MessageData.fileMimeType := None |} env0 = (None, store0)
  /\ createMessageOf Ts store0 (textData (JStr "")) env0 = (None, store0).
Proof.
  split.
  - apply createMessage_null_unchanged. left. reflexivity.
  - apply createMessage_null_unchanged. right. split; reflexivity.
Defined.

(** ** The two [createMessage] compared *)

(** C10 as stated fails: on [" hi "] both stores create a message but only
    the TypeScript one trims its content, and on the empty string the
    TypeScript store returns [null] while the transpiled one creates a
    message. *)
Lemma createMessage_stores_differ :
  ~ (forall st d env,
       fst (DistStore.createMessage st d env) = fst (TsStore.createMessage st d env)).
Proof.
  intros H. specialize (H store0 (textData (JStr " hi ")) env0). discriminate H.
Qed.

Lemma createMessage_stores_differ_on_empty :
  fst (DistStore.createMessage store0 (textData (JStr "")) env0) <> None
  /\ fst (TsStore.createMessage store0 (textData (JStr "")) env0) = None.
Proof. split; [discriminate | reflexivity]. Qed.

Lemma ts_createMessage_unfold (st : DataStore) (d : MessageData.t) (env : Env) :
  TsStore.createMessage st d env
  = if ts_accepts d then DistStore.createMessage st (ts_normal d) env else (None, st).
Proof.
  unfold ts_accepts, content_missing, TsStore.createMessage, DistStore.createMessage.
  destruct (negb (truthy _) || negb (is_string _)); simpl; [done|].
  destruct (MessageData.userId d) as [k|]; simpl; [|done].
  destruct (String.eqb k ""); simpl; [done|].
  by destruct (get k (users st)).
Qed.

(** C10, amended: the TypeScript [createMessage] is the transpiled one
    behind two guards and a normalization. When the content is a non-empty
    string and [userId] is not empty it does what the transpiled function
    does on the same data with the content trimmed and a missing type
    replaced by ['text'], otherwise it returns [null] and changes nothing;
    so the two agree on data that pass the guards and are already normal. *)
Theorem createMessage_ts_is_guarded_dist (st : DataStore) (d : MessageData.t) (env : Env) :
  TsStore.createMessage st d env
  = (if ts_accepts d then DistStore.createMessage st (ts_normal d) env else (None, st))
  /\ (ts_accepts d = true -> ts_normal d = d ->
      TsStore.createMessage st d env = DistStore.createMessage st d env).
Proof.
  split; [apply ts_createMessage_unfold|].
  intros Ha Hn. rewrite ts_createMessage_unfold, Ha, Hn. reflexivity.
Qed.

Lemma createMessage_ts_is_guarded_dist_witness :
  TsStore.createMessage store0 (textData (JStr "hi")) env0
  = DistStore.createMessage store0 (textData (JStr "hi")) env0
  /\ TsStore.createMessage store0 (textData (JStr paddedHi)) env0
     = DistStore.createMessage store0 (textData (JStr "hi")) env0
  /\ ts_normal (textData (JStr paddedHi)) <> textData (JStr paddedHi).
Proof.
  split; [|split].
  - apply (createMessage_ts_is_guarded_dist store0 (textData (JStr "hi")) env0);
      reflexivity.
  - rewrite (proj1 (createMessage_ts_is_guarded_dist store0 (textData (JStr paddedHi))
                      env0)).
    reflexivity.
  - discriminate.
Defined.

(** ** What [saveData] touches *)

Lemma saveData_heap (st : DataStore) : heap (saveData st) = heap st.
Proof. unfold saveData. by destruct (writable (disk st)). Qed.

Lemma saveData_users (st : DataStore) : users (saveData st) = users st.
Proof. unfold saveData. by destruct (writable (disk st)). Qed.

Lemma saveData_messages (st : DataStore) : messages (saveData st) = messages st.
Proof. unfold saveData. by destruct (writable (disk st)). Qed.

Lemma saveData_rooms (st : DataStore) : rooms (saveData st) = rooms st.
Proof. unfold saveData. by destruct (writable (disk st)). Qed.

Create Rewrite HintDb store.

#[local] Hint Rewrite saveData_heap saveData_users saveData_messages saveData_rooms
  : store.

Lemma saveData_writable (st : DataStore) :
  writable (disk (saveData st)) = writable (disk st).
Proof. unfold saveData. by destruct (writable (disk st)) eqn:E. Qed.

Lemma saveData_deref (st : DataStore) (r : ref) : deref (saveData st) r = deref st r.
Proof. unfold deref. by autorewrite with store. Qed.

Lemma saveData_serialize (st : DataStore) (m : Message.t ref) :
  serialize (saveData st) m = serialize st m.
Proof. unfold serialize, Message.map_user. by rewrite saveData_deref. Qed.

Lemma saveData_written (st : DataStore) :
  writable (disk st) = true ->
  disk (saveData st)
  = mkDisk (userObjects st)
           (List.map (serialize st) (slice (-1000) (messages st)))
           (values (rooms st)) true.
Proof. unfold saveData. by intros ->. Qed.

Lemma saveData_readonly (st : DataStore) :
  writable (disk st) = false -> saveData st = st.
Proof. unfold saveData. by intros ->. Qed.

Lemma slice_1000_length {A : Type} (l : list A) :
  (length (slice (-1000) l) <= 1000)%nat.
Proof. rewrite (slice_neg_length 1000) by lia. lia. Qed.

Lemma slice_1000_short {A : Type} (l : list A) :
  (length l <= 1000)%nat -> slice (-1000) l = l.
Proof.
  intros H. rewrite (slice_neg_last 1000) by lia.
  replace (length l - Z.to_nat 1000)%nat with 0%nat by lia. reflexivity.
Qed.

Lemma saveData_file_capped (st : DataStore) :
  (length (messagesFile (disk st)) <= 1000)%nat ->
  (length (messagesFile (disk (saveData st))) <= 1000)%nat.
Proof.
  intros H. destruct (writable (disk st)) eqn:E.
  - rewrite saveData_written by done. simpl.
    rewrite length_map. apply slice_1000_length.
  - by rewrite saveData_readonly.
Qed.

(** ** The history cap *)

Lemma slice_slice_app {A : Type} (n : Z) (l l' : list A) :
  0 < n -> slice (- n) (slice (- n) l ++ l') = slice (- n) (l ++ l').
Proof.
  intros Hn. rewrite !slice_neg_last by done.
  set (k := Z.to_nat n).
  destruct (decide (length l <= k)%nat) as [Hle|Hgt].
  - replace (length l - k)%nat with 0%nat by lia. reflexivity.
  - set (b := drop (length l - k) l).
    assert (Hb : length b = k) by (unfold b; rewrite length_drop; lia).
    assert (Hl : l = take (length l - k) l ++ b) by (symmetry; apply take_drop).
    set (a := take (length l - k) l) in Hl. clearbody a b. subst l.
    rewrite <- app_assoc, !length_app.
    replace (length a + (length b + length l') - k)%nat
      with (length a + (length b + length l' - k))%nat by lia.
    by rewrite drop_app_add.
Qed.

Lemma pushMessage_messages (st : DataStore) (m : Message.t ref) :
  messages (pushMessage st m) = slice (-1000) (messages st ++ [m]).
Proof.
  unfold pushMessage. rewrite saveData_messages. simpl.
  destruct (Nat.ltb_spec 1000 (length (messages st ++ [m]))); [done|].
  by rewrite slice_1000_short.
Qed.

Lemma pushMessage_heap (st : DataStore) (m : Message.t ref) :
  heap (pushMessage st m) = heap st.
Proof. unfold pushMessage. by autorewrite with store. Qed.

Lemma pushMessage_users (st : DataStore) (m : Message.t ref) :
  users (pushMessage st m) = users st.
Proof. unfold pushMessage. by autorewrite with store. Qed.

#[local] Hint Rewrite pushMessage_heap pushMessage_users : store.

Lemma pushMessage_writable (st : DataStore) (m : Message.t ref) :
  writable (disk (pushMessage st m)) = writable (disk st).
Proof. unfold pushMessage. by rewrite saveData_writable. Qed.

Lemma pushMessage_file (st : DataStore) (m : Message.t ref) :
  writable (disk st) = true ->
  messagesFile (disk (pushMessage st m))
  = List.map (serialize st) (messages (pushMessage st m)).
Proof.
  intros Hw. rewrite pushMessage_messages.
  unfold pushMessage. rewrite saveData_written by done.
  cbn [messagesFile messages heap].
  destruct (Nat.ltb_spec 1000 (length (messages st ++ [m]))) as [Hlt|Hle].
  - rewrite (slice_1000_short (slice (-1000) _)) by apply slice_1000_length.
    reflexivity.
  - rewrite slice_1000_short by done. reflexivity.
Qed.

Lemma pushMessage_capped (st : DataStore) (m : Message.t ref) :
  (length (messagesFile (disk st)) <= 1000)%nat -> capped (pushMessage st m).
Proof.
  intros H. split.
  - rewrite pushMessage_messages. apply slice_1000_length.
  - unfold pushMessage. by apply saveData_file_capped.
Qed.

(** A successful [createMessage], of either store, ends in [pushMessage]
    and touches nothing before. *)
Lemma createMessage_pushes (impl : StoreImpl) (st : DataStore) (d : MessageData.t)
  (env : Env) (m : Message.t ref) (st' : DataStore) :
  createMessageOf impl st d env = (Some m, st') ->
  st' = pushMessage st m
  /\ exists userId, MessageData.userId d = Some userId
       /\ get userId (users st) = Some (Message.user m)
       /\ Message.userId m = userId.
Proof.
  destruct impl; simpl.
  - unfold DistStore.createMessage.
    destruct (MessageData.userId d) as [k|]; [|done].
    destruct (get k (users st)) as [r|] eqn:E; [|done].
    intros [= <- <-]. split; [done|]. by exists k.
  - unfold TsStore.createMessage.
    destruct (_ || _); [done|].
    destruct (MessageData.userId d) as [k|]; [|done].
    destruct (String.eqb k ""); [done|].
    destruct (get k (users st)) as [r|] eqn:E; [|done].
    intros [= <- <-]. split; [done|]. by exists k.
Qed.

Lemma createMessage_failure (impl : StoreImpl) (st : DataStore) (d : MessageData.t)
  (env : Env) (st' : DataStore) :
  createMessageOf impl st d env = (None, st') -> st' = st.
Proof.
  destruct impl; simpl.
  - unfold DistStore.createMessage.
    destruct (MessageData.userId d) as [k|]; [|congruence].
    destruct (get k (users st)); [done|congruence].
  - unfold TsStore.createMessage.
    destruct (_ || _); [congruence|].
    destruct (MessageData.userId d) as [k|]; [|congruence].
    destruct (String.eqb k ""); [congruence|].
    destruct (get k (users st)); [done|congruence].
Qed.

Lemma saveData_capped (st : DataStore) :
  (length (messages st) <= 1000)%nat ->
  (length (messagesFile (disk st)) <= 1000)%nat ->
  capped (saveData st).
Proof.
  intros Hm Hf. split.
  - by rewrite saveData_messages.
  - by apply saveData_file_capped.
Qed.

Lemma exec_capped (st : DataStore) (c : StoreOp * Env) :
  capped st -> capped (exec st c).
Proof.
  intros [Hm Hf]. destruct c as [[] env]; simpl; try (by split).
  - by apply saveData_capped.
  - unfold updateUser. destruct (_ ≫= _); simpl; [|by split].
    by apply saveData_capped.
  - destruct (createMessageOf impl st messageData env) as [[m|] st'] eqn:E; simpl.
    + apply createMessage_pushes in E as [-> _]. by apply pushMessage_capped.
    + apply createMessage_failure in E as ->. by split.
  - by apply saveData_capped.
  - apply saveData_capped; [|done]. simpl.
    etransitivity; [apply filter_length_le|done].
Qed.

(** With 1000 messages in memory, the new one takes the place of the
    oldest. *)
Lemma createMessage_drops_oldest (impl : StoreImpl) (st : DataStore)
  (d : MessageData.t) (env : Env) (m : Message.t ref) (st' : DataStore) :
  createMessageOf impl st d env = (Some m, st') ->
  length (messages st) = 1000%nat ->
  messages st' = drop 1 (messages st) ++ [m].
Proof.
  intros E Hlen. apply createMessage_pushes in E as [-> _].
  rewrite pushMessage_messages, (slice_neg_last 1000) by lia.
  rewrite length_app, Hlen. simpl length.
  replace (1000 + 1 - Z.to_nat 1000)%nat with 1%nat by lia.
  rewrite drop_app_le by lia. reflexivity.
Qed.

Lemma createAll_history (impl : StoreImpl) (ds : list (MessageData.t * Env)) :
  forall st ms st',
    createAll impl ds st = (List.map Some ms, st') ->
    ds <> [] ->
    messages st' = slice (-1000) (messages st ++ ms)
    /\ length ms = length ds
    /\ heap st' = heap st
    /\ (writable (disk st) = true ->
        messagesFile (disk st') = List.map (serialize st') (messages st')).
Proof.
  induction ds as [|[d env] rest IH]; intros st ms st' E Hne; [done|].
  simpl in E.
  destruct (createMessageOf impl st d env) as [m st1] eqn:E1.
  destruct (createAll impl rest st1) as [ms2 st2] eqn:E2.
  destruct ms as [|m0 ms0]; [done|]. simpl in E.
  injection E as -> -> ->.
  apply createMessage_pushes in E1 as [-> _].
  destruct rest as [|c rest].
  - destruct ms0; [|done]. injection E2 as <-.
    rewrite pushMessage_messages, pushMessage_heap.
    split; [done|]. split; [done|]. split; [done|].
    intros Hw. rewrite pushMessage_file, pushMessage_messages by done.
    apply map_ext. intros a. unfold serialize, deref. by rewrite pushMessage_heap.
  - apply IH in E2 as (Hm & Hl & Hh & Hf); [|done].
    split; [|split; [by simpl; rewrite Hl|split]].
    + rewrite Hm, pushMessage_messages.
      rewrite (slice_slice_app 1000) by lia. by rewrite <- app_assoc.
    + by rewrite Hh, pushMessage_heap.
    + intros Hw. apply Hf. by rewrite pushMessage_writable.
Qed.

(** C4: every call of the store keeps at most 1000 messages in memory and
    at most 1000 in the messages file; a message created when 1000 are held
    takes the place of the oldest; and once 1001 messages have been created
    exactly 1000 are held in memory, the most recent ones, and the same 1000
    in the file. *)
Theorem history_cap :
  (forall st c, capped st -> capped (exec st c))
  /\ (forall impl st d env m st',
        createMessageOf impl st d env = (Some m, st') ->
        length (messages st) = 1000%nat ->
        messages st' = drop 1 (messages st) ++ [m])
  /\ (forall impl ds st ms st',
        createAll impl ds st = (List.map Some ms, st') ->
        length ds = 1001%nat ->
        length (messages st') = 1000%nat
        /\ messages st' = slice (-1000) (messages st ++ ms)
        /\ (writable (disk st) = true ->
            length (messagesFile (disk st')) = 1000%nat
            /\ messagesFile (disk st') = List.map (serialize st') (messages st'))).
Proof.
  split; [exact exec_capped|]. split; [exact createMessage_drops_oldest|].
  intros impl ds st ms st' E Hlen.
  apply createAll_history in E as (Hm & Hl & _ & Hf); [|by destruct ds].
  assert (Hk : length (messages st') = 1000%nat).
  { rewrite Hm, (slice_neg_length 1000), length_app by lia. lia. }
  split; [done|]. split; [done|]. intros Hw.
  rewrite Hf by done. by rewrite length_map.
Qed.

Lemma history_cap_witness :
  capped (exec store0 (opCleanup, env0))
  /\ (length (messages (snd (createAll Dist burst store0))) = 1000%nat
      /\ length (messagesFile (disk (snd (createAll Dist burst store0)))) = 1000%nat).
Proof.
  destruct history_cap as (H1 & _ & H3). split.
  - apply H1. split; simpl; lia.
  - destruct (H3 Dist burst store0
                (omap id (fst (createAll Dist burst store0)))
                (snd (createAll Dist burst store0))) as (Ha & _ & Hb).
    + vm_compute. reflexivity.
    + reflexivity.
    + split; [exact Ha|]. apply Hb. reflexivity.
Defined.

(** ** Retention *)

Lemma cleanup_messages (st : DataStore) (env : Env) :
  messages (cleanup st env)
  = List.filter (fun msg => date_gt (Message.createdAt msg) (DateMs (now env - oneWeek)))
                (messages st).
Proof. unfold cleanup. by autorewrite with store. Qed.

Lemma cleanup_users (st : DataStore) (env : Env) :
  users (cleanup st env) = users st /\ heap (cleanup st env) = heap st.
Proof. unfold cleanup. by autorewrite with store. Qed.



Lemma slice_In {A : Type} (k : Z) (l : list A) (x : A) : In x (slice k l) -> In x l.
Proof. unfold slice. rewrite <- !list_elem_of_In. apply subseteq_drop. Qed.

(** The period of the sweep: 7 days, in milliseconds. *)
Lemma oneWeek_is_7_days : oneWeek = 604800000.
Proof. reflexivity. Qed.




(** ** User objects are never written to after their creation *)

(** Every call leaves the objects of the heap where and as they are; new
    objects come after them. *)
Lemma exec_heap_grows (st : DataStore) (c : StoreOp * Env) :
  heap st `prefix_of` heap (exec st c).
Proof.
  destruct c as [[] env]; simpl; try done.
  - rewrite saveData_heap. simpl. by apply prefix_app_r.
  - unfold updateUser. destruct (_ ≫= _); simpl; [|done].
    rewrite saveData_heap. simpl. by apply prefix_app_r.
  - destruct (createMessageOf impl st messageData env) as [[m|] st'] eqn:E; simpl.
    + apply createMessage_pushes in E as [-> _]. by rewrite pushMessage_heap.
    + by apply createMessage_failure in E as ->.
  - by rewrite saveData_heap.
  - by destruct (cleanup_users st env) as [_ ->].
Qed.

Lemma exec_all_heap_grows (cs : list (StoreOp * Env)) (st : DataStore) :
  heap st `prefix_of` heap (exec_all cs st).
Proof.
  revert st. induction cs as [|c cs IH]; intros st; simpl; [done|].
  etransitivity; [apply exec_heap_grows|apply IH].
Qed.

Lemma deref_grows (st st' : DataStore) (r : ref) (user : User.t) :
  heap st `prefix_of` heap st' -> deref st r = Some user -> deref st' r = Some user.
Proof. unfold deref. intros Hp Hr. by eapply prefix_lookup_Some. Qed.

Lemma heap_closed_get (st : DataStore) (k : string) (r : ref) :
  heap_closed st -> get k (users st) = Some r -> is_Some (deref st r).
Proof.
  unfold heap_closed, deref. intros Hc Hg. apply lookup_lt_is_Some.
  induction (users st) as [|[k' r'] l IH]; [done|].
  apply Forall_cons in Hc as [Hr Hl]. simpl in Hg.
  destruct (String.eqb k' k); [by injection Hg as <-|by apply IH].
Qed.

Lemma set_Forall {V : Type} (P : string * V -> Prop) (k : string) (v : V) (m : Map V) :
  P (k, v) -> Forall P m -> Forall P (set k v m).
Proof.
  intros Hv. induction 1 as [|[k' v'] l Hx Hl IH]; simpl.
  - by constructor.
  - destruct (String.eqb_spec k' k) as [->|]; constructor; auto.
Qed.

(** The store keeps its references inside the heap. *)
Lemma exec_heap_closed (st : DataStore) (c : StoreOp * Env) :
  heap_closed st -> heap_closed (exec st c).
Proof.
  unfold heap_closed. intros Hc.
  assert (Hgrow : forall u : User.t,
             Forall (fun p : string * ref => (snd p < length (heap st ++ [u]))%nat)
                    (users st)).
  { intros u. eapply Forall_impl; [exact Hc|].
    intros p Hp. rewrite length_app. simpl in *. lia. }
  destruct c as [[] env]; simpl; try done.
  - rewrite saveData_heap, saveData_users. simpl.
    apply set_Forall; [|apply Hgrow].
    rewrite length_app. simpl. lia.
  - unfold updateUser. destruct (_ ≫= _); simpl; [|done].
    rewrite saveData_heap, saveData_users. simpl.
    apply set_Forall; [|apply Hgrow].
    rewrite length_app. simpl. lia.
  - destruct (createMessageOf impl st messageData env) as [[m|] st'] eqn:E; simpl.
    + apply createMessage_pushes in E as [-> _]. by autorewrite with store.
    + by apply createMessage_failure in E as ->.
  - by autorewrite with store.
  - by destruct (cleanup_users st env) as [-> ->].
Qed.

Lemma updateUser_messages (st : DataStore) (id : string) (updates : PartialUser.t) :
  messages (snd (updateUser st id updates)) = messages st.
Proof.
  unfold updateUser. destruct (_ ≫= _); simpl; [|done].
  by rewrite saveData_messages.
Qed.

Lemma pushMessage_In (st : DataStore) (m : Message.t ref) :
  In m (messages (pushMessage st m)).
Proof.
  rewrite pushMessage_messages, (slice_neg_last 1000) by lia.
  rewrite <- list_elem_of_In, list_elem_of_lookup.
  exists (length (messages st) - (length (messages st ++ [m]) - Z.to_nat 1000))%nat.
  rewrite lookup_drop, length_app. simpl length.
  replace (_ + _)%nat with (length (messages st) + 0)%nat by lia.
  by rewrite lookup_app_r, Nat.add_comm, Nat.add_sub by lia.
Qed.

(** C9: the [user] of a created message is the object that [users] holds
    for the sender at that moment, so what it shows is the sender's record
    at creation time; no later call of the store writes to that object.
    [updateUser] puts a new object in [users] and leaves the history as it
    is, and after any sequence of calls the message still shows, and
    serializes, the record of creation time. *)
Theorem snapshot_is_frozen (impl : StoreImpl) (st : DataStore) (d : MessageData.t)
  (env : Env) (m : Message.t ref) (st' : DataStore) :
  heap_closed st ->
  createMessageOf impl st d env = (Some m, st') ->
  exists user,
    MessageData.userId d ≫= record st = Some user
    /\ In m (messages st')
    /\ deref st' (Message.user m) = Some user
    /\ (forall id updates,
          messages (snd (updateUser st' id updates)) = messages st'
          /\ deref (snd (updateUser st' id updates)) (Message.user m) = Some user)
    /\ (forall cs,
          deref (exec_all cs st') (Message.user m) = Some user
          /\ Message.user (serialize (exec_all cs st') m) = Some user).
Proof.
  intros Hc E.
  apply createMessage_pushes in E as (-> & k & Hk & Hg & _).
  destruct (heap_closed_get st k _ Hc Hg) as [user Hu].
  assert (Hu' : deref (pushMessage st m) (Message.user m) = Some user).
  { unfold deref. by rewrite pushMessage_heap. }
  exists user. split; [|split; [|split; [|split]]].
  - rewrite Hk. simpl. unfold record, findUserById. rewrite Hg. exact Hu.
  - apply pushMessage_In.
  - exact Hu'.
  - intros id updates. split; [apply updateUser_messages|].
    eapply deref_grows; [|exact Hu'].
    apply (exec_heap_grows _ (opUpdateUser id updates, env)).
  - intros cs.
    assert (deref (exec_all cs (pushMessage st m)) (Message.user m) = Some user) as H.
    { eapply deref_grows; [apply exec_all_heap_grows|exact Hu']. }
    split; [exact H|]. simpl. exact H.
Qed.

Lemma snapshot_is_frozen_witness :
  exists m st',
    DistStore.createMessage store0 (textData (JStr "hi")) env0 = (Some m, st')
    /\ deref st' (Message.user m) = Some alice
    /\ deref (snd (updateUser st' "u1"
                     {| PartialUser.id := None; PartialUser.username := None;
                        PartialUser.avatar := Some "b.png";
                        PartialUser.isOnline := Some false;
                        PartialUser.lastSeen := Some (DateMs 7000);
                        PartialUser.createdAt := None |}))
             (Message.user m) = Some alice.
Proof.
  destruct (DistStore.createMessage store0 (textData (JStr "hi")) env0)
    as [[m|] st'] eqn:E; [|discriminate E].
  exists m, st'. split; [reflexivity|].
  destruct (snapshot_is_frozen Dist store0 (textData (JStr "hi")) env0 m st')
    as (user & Hs & _ & Hd & Hupd & _).
  - repeat constructor.
  - exact E.
  - assert (Some user = Some alice) as [= ->] by (rewrite <- Hs; reflexivity).
    split; [exact Hd|]. apply Hupd.
Defined.

(** ** [sendMessage] on a connection without session *)

Lemma dist_sendMessage_silent : silent_without_session dist_sendMessage.
Proof.
  intros sid messageData env w H. exists w.
  unfold dist_sendMessage, DistServer.sendMessage. by rewrite H.
Qed.



Lemma v1_guard (content : string) :
  negb (truthy (JStr content)) || negb (is_string (JStr content))
  || String.eqb (trim content) ""
  = String.eqb (trim content) "".
Proof. by destruct content. Qed.

Lemma v1_normalize (messageData : SendData.t) :
  ServerV1.normalize messageData
  = if truthy (v1_source messageData) then
      match toString (v1_source messageData) with
      | Some content =>
          ServerV1.Normal content (js_or (SendData.type messageData) (JStr "text"))
                          (SendData.file messageData)
      | None => ServerV1.Throws
      end
    else ServerV1.Missing.
Proof.
  unfold ServerV1.normalize, v1_source, js_or.
  destruct (truthy (SendData.text messageData)) eqn:Et; [by rewrite ?Et|].
  by destruct (truthy (SendData.content messageData)) eqn:Ec; rewrite ?Ec.
Qed.



(** ** [Map] and room facts *)

Lemma get_set_eq {V : Type} (k : string) (v : V) (m : Map V) :
  get k (set k v m) = Some v.
Proof.
  induction m as [|[k' v'] m IH]; simpl.
  - by rewrite String.eqb_refl.
  - destruct (String.eqb k' k) eqn:E; simpl; by rewrite E.
Qed.

Lemma get_set_ne {V : Type} (k k0 : string) (v : V) (m : Map V) :
  k <> k0 -> get k0 (set k v m) = get k0 m.
Proof.
  intros Hne. induction m as [|[k' v'] m IH]; simpl.
  - destruct (String.eqb_spec k k0); [done|reflexivity].
  - destruct (String.eqb_spec k' k) as [->|]; simpl.
    + destruct (String.eqb_spec k k0); [done|reflexivity].
    + by rewrite IH.
Qed.

Lemma get_delete_eq {V : Type} (k : string) (m : Map V) : get k (delete k m) = None.
Proof.
  induction m as [|[k' v'] m IH]; simpl; [done|].
  destruct (String.eqb k' k) eqn:E; simpl; [done|]. by rewrite E.
Qed.

Lemma remove_remove (sid : string) (l : list string) :
  remove sid (remove sid l) = remove sid l.
Proof.
  unfold remove. induction l as [|s l IH]; simpl; [done|].
  destruct (String.eqb s sid) eqn:E; simpl; [done|]. by rewrite E, IH.
Qed.

Lemma mem_remove_self (sid : string) (l : list string) : mem sid (remove sid l) = false.
Proof.
  unfold mem, remove. induction l as [|s l IH]; simpl; [done|].
  destruct (String.eqb s sid) eqn:E; simpl; [done|].
  by rewrite String.eqb_sym, E.
Qed.

Lemma mem_remove_other (sid other : string) (l : list string) :
  other <> sid -> mem other (remove sid l) = mem other l.
Proof.
  intros Hne. unfold mem, remove. induction l as [|s l IH]; simpl; [done|].
  destruct (String.eqb_spec s sid) as [->|]; simpl.
  - destruct (String.eqb_spec other sid); [done|]. by rewrite IH.
  - by rewrite IH.
Qed.

Lemma mem_add (sid other : string) (l : list string) :
  mem other (add sid l) = String.eqb other sid || mem other l.
Proof.
  unfold add. destruct (mem sid l) eqn:E.
  - destruct (String.eqb_spec other sid) as [->|]; [by rewrite E|done].
  - unfold mem. rewrite existsb_app. simpl. rewrite orb_false_r. apply orb_comm.
Qed.

(** ** Disconnecting twice *)

Lemma updateUser_record (st : DataStore) (id : string) (updates : PartialUser.t)
  (user : User.t) :
  get id (users st) ≫= deref st = Some user ->
  get id (users (snd (updateUser st id updates)))
    ≫= deref (snd (updateUser st id updates))
  = Some (spread user updates).
Proof.
  intros H. unfold updateUser. rewrite H. simpl.
  rewrite saveData_users. simpl. rewrite get_set_eq. simpl.
  unfold deref. rewrite saveData_heap. simpl.
  by rewrite lookup_app_r, Nat.sub_diag.
Qed.

Lemma on_disconnect_session (sid : string) (env : Env) (w : World) (user : SocketUser.t) :
  get sid (connectedUsers w) = Some user ->
  DistServer.on_disconnect sid env w
  = mkWorld (match SocketUser.id user with
             | Some id => snd (updateUser (store w) id (offline env))
             | None => store w
             end)
            (delete sid (connectedUsers w))
            (remove sid (sockets w))
            (remove sid (general w))
            (trace w ++ [mkEmit (remove sid (sockets w))
                                (Ev.userLeft user (values (delete sid (connectedUsers w))))]).
Proof.
  intros H. unfold DistServer.on_disconnect, DistServer.disconnect. simpl.
  rewrite H. reflexivity.
Qed.

Lemma on_disconnect_no_session (sid : string) (env : Env) (w : World) :
  get sid (connectedUsers w) = None ->
  DistServer.on_disconnect sid env w = socket_close sid w.
Proof.
  intros H. unfold DistServer.on_disconnect, DistServer.disconnect. simpl.
  by rewrite H.
Qed.

(** C8: a socket with a session that is closed twice. The first
    [disconnect] emits one event and no other, [userLeft] to the sockets that
    remain, and removes the session; it updates the user once: one new object
    replaces the record under the same key, with [isOnline] false, [lastSeen]
    the time of the disconnect and the other fields as they were. The second
    changes nothing: no event, no update, no error. *)
Theorem disconnect_twice (sid : string) (env1 env2 : Env) (w : World) (user : SocketUser.t) :
  get sid (connectedUsers w) = Some user ->
  let w1 := DistServer.on_disconnect sid env1 w in
  let w2 := DistServer.on_disconnect sid env2 w1 in
  trace w1
  = trace w ++ [mkEmit (remove sid (sockets w))
                       (Ev.userLeft user (values (delete sid (connectedUsers w))))]
  /\ get sid (connectedUsers w1) = None
  /\ store w1 = match SocketUser.id user with
                | Some id => snd (updateUser (store w) id (offline env1))
                | None => store w
                end
  /\ (forall id current,
        SocketUser.id user = Some id ->
        record (store w) id = Some current ->
        record (store w1) id
        = Some {| User.id := User.id current;
                  User.username := User.username current;
                  User.avatar := User.avatar current;
                  User.isOnline := false;
                  User.lastSeen := DateMs (now env1);
                  User.createdAt := User.createdAt current |}
        /\ length (heap (store w1)) = S (length (heap (store w)))
        /\ messages (store w1) = messages (store w))
  /\ w2 = w1.
Proof.
  intros H w1 w2. subst w1 w2.
  rewrite (on_disconnect_session sid env1 w user H).
  rewrite on_disconnect_no_session by apply get_delete_eq.
  simpl. split; [done|]. split; [apply get_delete_eq|]. split; [done|]. split.
  - intros id current -> Hr. split; [|split].
    + exact (updateUser_record (store w) id (offline env1) current Hr).
    + unfold record, findUserById in Hr. unfold updateUser. rewrite Hr. simpl.
      rewrite saveData_heap. simpl. rewrite length_app. simpl. lia.
    + apply updateUser_messages.
  - unfold socket_close. simpl. by rewrite !remove_remove.
Qed.

Lemma disconnect_twice_witness :
  let w1 := DistServer.on_disconnect "B" env0 worldB in
  length (trace w1) = 1%nat
  /\ DistServer.on_disconnect "B" env1 w1 = w1
  /\ record (store w1) "u1"
     = Some {| User.id := "u1"; User.username := "alice"; User.avatar := "a.png";
               User.isOnline := false; User.lastSeen := DateMs 5000;
               User.createdAt := DateMs 1000 |}
  /\ length (heap (store w1)) = 2%nat.
Proof.
  intros w1.
  destruct (disconnect_twice "B" env0 env1 worldB
              {| SocketUser.user := Some alice; SocketUser.socketId := "B" |} eq_refl)
    as (Ht & _ & _ & Hr & Hs).
  split; [subst w1; by rewrite Ht|]. split; [exact Hs|].
  destruct (Hr "u1" alice eq_refl eq_refl) as (Hrec & Hh & _).
  split; [exact Hrec|exact Hh].
Defined.

(** ** The users of a well-formed store *)

Lemma get_In {V : Type} (k : string) (v : V) (m : Map V) :
  get k m = Some v -> In (k, v) m.
Proof.
  induction m as [|[k' v'] m IH]; simpl; [done|].
  destruct (String.eqb_spec k' k) as [->|]; [|by right; apply IH].
  intros [= ->]. by left.
Qed.

Lemma In_get {V : Type} (k : string) (v : V) (m : Map V) :
  NoDup (keys m) -> In (k, v) m -> get k m = Some v.
Proof.
  induction m as [|[k' v'] m IH]; simpl; [done|].
  intros Hnd [[= -> ->]|Hin].
  - by rewrite String.eqb_refl.
  - apply NoDup_cons in Hnd as [Hk Hnd].
    destruct (String.eqb_spec k' k) as [->|]; [|by apply IH].
    exfalso. apply Hk. apply list_elem_of_In.
    apply (in_map fst) in Hin. exact Hin.
Qed.

Lemma get_None_keys {V : Type} (k : string) (m : Map V) :
  get k m = None <-> ~ In k (keys m).
Proof.
  induction m as [|[k' v'] m IH]; simpl; [tauto|].
  destruct (String.eqb_spec k' k) as [->|Hne].
  - split; [done|]. intros H. exfalso. apply H. by left.
  - rewrite IH. split; [|tauto]. intros H [?|?]; [done|tauto].
Qed.

Lemma keys_set {V : Type} (k : string) (v : V) (m : Map V) :
  keys (set k v m) = match get k m with Some _ => keys m | None => keys m ++ [k] end.
Proof.
  induction m as [|[k' v'] m IH]; simpl; [done|].
  destruct (String.eqb_spec k' k) as [->|Hne]; simpl; [done|].
  rewrite IH. by destruct (get k m).
Qed.

Lemma set_NoDup {V : Type} (k : string) (v : V) (m : Map V) :
  NoDup (keys m) -> NoDup (keys (set k v m)).
Proof.
  intros Hnd. rewrite keys_set. destruct (get k m) eqn:E; [done|].
  apply NoDup_app. split; [done|]. split; [|apply NoDup_singleton].
  intros x Hx ->%list_elem_of_singleton.
  apply get_None_keys in E. apply E. by apply list_elem_of_In.
Qed.

Lemma values_In {V : Type} (v : V) (m : Map V) :
  In v (values m) -> exists k, In (k, v) m.
Proof.
  unfold values. intros ((k & v') & <- & Hin)%in_map_iff. by exists k.
Qed.

Lemma find_user_sound (st : DataStore) (name : string) (r : ref) :
  findUserByUsername st name = Some r ->
  In r (values (users st))
  /\ exists user, deref st r = Some user /\ User.username user = name.
Proof.
  unfold findUserByUsername. intros [Hin H]%find_some. split; [done|].
  destruct (deref st r) as [user|]; [|done].
  exists user. split; [done|]. by apply String.eqb_eq.
Qed.

Lemma find_user_complete (st : DataStore) (name : string) (r : ref) (user : User.t) :
  In r (values (users st)) -> deref st r = Some user -> User.username user = name ->
  findUserByUsername st name <> None.
Proof.
  intros Hin Hd Hn Hnone. unfold findUserByUsername in Hnone.
  eapply find_none in Hnone; [|exact Hin]. simpl in Hnone.
  rewrite Hd, Hn, String.eqb_refl in Hnone. done.
Qed.

Lemma wf_entry (st : DataStore) (k : string) (r : ref) :
  store_wf st -> In (k, r) (users st) ->
  get k (users st) = Some r
  /\ exists user, deref st r = Some user /\ User.id user = k.
Proof.
  intros [Hnd Hall] Hin. split; [by apply In_get|].
  rewrite Forall_forall in Hall. apply (Hall (k, r)). by apply list_elem_of_In.
Qed.

(** In a well-formed store the object found by name is the one stored under
    its own [id]. *)
Lemma find_user_wf (st : DataStore) (name : string) (r : ref) :
  store_wf st -> findUserByUsername st name = Some r ->
  exists user, deref st r = Some user /\ User.username user = name
               /\ get (User.id user) (users st) = Some r.
Proof.
  intros Hwf (Hin & user & Hd & Hn)%find_user_sound.
  apply values_In in Hin as [k Hin].
  destruct (wf_entry st k r Hwf Hin) as (Hg & user' & Hd' & Hid).
  rewrite Hd in Hd'. injection Hd' as <-.
  exists user. by rewrite Hid.
Qed.

Lemma deref_alloc_old (st : DataStore) (new : User.t) (r : ref) (user : User.t) :
  heap st !! r = Some user -> (heap st ++ [new]) !! r = Some user.
Proof. intros H. by apply lookup_app_l_Some. Qed.

Lemma deref_alloc_new (st : DataStore) (new : User.t) :
  (heap st ++ [new]) !! length (heap st) = Some new.
Proof. by rewrite lookup_app_r, Nat.sub_diag. Qed.

(** A store whose [users] receive a new object under the [id] of that
    object is well formed again. *)
Lemma store_wf_set (st : DataStore) (new : User.t) (msgs : list (Message.t ref))
  (rs : Map Room.t) (dk : Disk) :
  store_wf st ->
  store_wf (mkStore (heap st ++ [new]) (set (User.id new) (length (heap st)) (users st))
                    msgs rs dk).
Proof.
  intros [Hnd Hall]. split; simpl.
  - by apply set_NoDup.
  - apply set_Forall.
    + exists new. split; [apply deref_alloc_new|done].
    + eapply Forall_impl; [exact Hall|].
      intros [k r] (user & Hd & Hid). exists user. split; [|done].
      by apply deref_alloc_old.
Qed.

Lemma store_wf_saveData (st : DataStore) : store_wf st -> store_wf (saveData st).
Proof. unfold store_wf, deref. by autorewrite with store. Qed.

Lemma createUser_wf (st : DataStore) (username avatar : string) (env : Env) :
  store_wf st -> store_wf (snd (createUser st username avatar env)).
Proof.
  intros Hwf. unfold createUser. simpl. apply store_wf_saveData.
  exact (store_wf_set st _ _ _ _ Hwf).
Qed.

Lemma spread_id (user : User.t) (updates : PartialUser.t) :
  PartialUser.id updates = None -> User.id (spread user updates) = User.id user.
Proof. intros H. simpl. by rewrite H. Qed.

(** [updateUser] with an update that carries no [id], on a well-formed
    store: the record is found and replaced under the same key. *)
Lemma updateUser_wf (st : DataStore) (id : string) (updates : PartialUser.t) :
  store_wf st -> PartialUser.id updates = None ->
  store_wf (snd (updateUser st id updates)).
Proof.
  intros Hwf Hno. unfold updateUser.
  destruct (get id (users st)) as [r|] eqn:Hg; simpl; [|done].
  destruct (deref st r) as [user|] eqn:Hd; simpl; [|done].
  apply store_wf_saveData.
  destruct (wf_entry st id r Hwf (get_In _ _ _ Hg)) as (_ & user' & Hd' & Hid).
  rewrite Hd in Hd'. injection Hd' as <-.
  pose proof (store_wf_set st (spread user updates) (messages st) (rooms st) (disk st) Hwf)
    as H.
  by rewrite spread_id, Hid in H.
Qed.

Lemma updateUser_found (st : DataStore) (id : string) (updates : PartialUser.t)
  (r : ref) (user : User.t) :
  get id (users st) = Some r -> deref st r = Some user ->
  updateUser st id updates
  = (Some (length (heap st)),
     saveData (mkStore (heap st ++ [spread user updates])
                       (set id (length (heap st)) (users st))
                       (messages st) (rooms st) (disk st))).
Proof. intros Hg Hd. unfold updateUser. rewrite Hg. simpl. by rewrite Hd. Qed.

(** ** [join]: the identity step *)

Lemma deref_saved_alloc (st : DataStore) (new : User.t) (us : Map ref)
  (msgs : list (Message.t ref)) (rs : Map Room.t) (dk : Disk) :
  deref (saveData (mkStore (heap st ++ [new]) us msgs rs dk)) (length (heap st))
  = Some new.
Proof. rewrite saveData_deref. unfold deref. simpl. apply deref_alloc_new. Qed.

Lemma join_register_new (sid : string) (userData : JoinData.t) (env : Env) (w : World) :
  findUserByUsername (store w) (JoinData.username userData) = None ->
  let user := newUser (JoinData.username userData) (JoinData.avatar userData) env in
  let socketUser := {| SocketUser.user := Some user; SocketUser.socketId := sid |} in
  join_register sid userData env w
  = (Some (length (heap (store w))), socketUser,
     mkWorld (snd (createUser (store w) (JoinData.username userData)
                              (JoinData.avatar userData) env))
             (set sid socketUser (connectedUsers w)) (sockets w)
             (add sid (general w)) (trace w)).
Proof.
  intros H. unfold join_register. rewrite H. simpl.
  by rewrite !deref_saved_alloc.
Qed.

Lemma join_register_returning (sid : string) (userData : JoinData.t) (env : Env)
  (w : World) (r : ref) (found : User.t) :
  findUserByUsername (store w) (JoinData.username userData) = Some r ->
  deref (store w) r = Some found ->
  get (User.id found) (users (store w)) = Some r ->
  let user := spread found (online (JoinData.avatar userData) env) in
  let socketUser := {| SocketUser.user := Some user; SocketUser.socketId := sid |} in
  join_register sid userData env w
  = (Some (length (heap (store w))), socketUser,
     mkWorld (snd (updateUser (store w) (User.id found)
                              (online (JoinData.avatar userData) env)))
             (set sid socketUser (connectedUsers w)) (sockets w)
             (add sid (general w)) (trace w)).
Proof.
  intros Hf Hd Hg. unfold join_register. rewrite Hf, Hd.
  rewrite (updateUser_found _ _ _ r found Hg Hd). simpl.
  by rewrite !deref_saved_alloc.
Qed.

(** On a well-formed store the identity step always yields a user. *)
Lemma join_register_user (sid : string) (userData : JoinData.t) (env : Env) (w : World) :
  store_wf (store w) ->
  exists r user st1,
    join_register sid userData env w
    = (Some r, {| SocketUser.user := Some user; SocketUser.socketId := sid |},
       mkWorld st1
               (set sid {| SocketUser.user := Some user; SocketUser.socketId := sid |}
                    (connectedUsers w))
               (sockets w) (add sid (general w)) (trace w)).
Proof.
  intros Hwf.
  destruct (findUserByUsername (store w) (JoinData.username userData)) as [r|] eqn:Hf.
  - destruct (find_user_wf _ _ _ Hwf Hf) as (found & Hd & _ & Hg).
    do 3 eexists. by apply (join_register_returning sid userData env w r found).
  - do 3 eexists. by apply join_register_new.
Qed.

(** ** [join]: the order of the events *)

Lemma emitted_app (w w' : World) (es : list Emit) :
  trace w' = trace w ++ es -> emitted w w' = es.
Proof. unfold emitted. intros ->. apply drop_app_length. Qed.

(** The handler of [dist/server.js], and of the [server.ts] it comes from:
    on a well-formed store a join emits four events and no other.
    [recentMessages], [onlineUsers] and [joinSuccess] go to the joining
    socket alone, in that order, and [userJoined] goes last, to the room
    without the joining socket. *)
Lemma dist_join_emits (sid : string) (userData : JoinData.t) (env : Env) (w : World) :
  store_wf (store w) ->
  exists su us msgs,
    emitted w (DistServer.join sid userData env w)
    = [ mkEmit [sid] (Ev.recentMessages msgs);
        mkEmit [sid] (Ev.onlineUsers us);
        mkEmit [sid] (Ev.joinSuccess su us msgs);
        mkEmit (remove sid (add sid (general w))) (Ev.userJoined su us) ].
Proof.
  intros Hwf. destruct (join_register_user sid userData env w Hwf) as (r & user & st1 & E).
  unfold DistServer.join. rewrite E.
  do 3 eexists. apply emitted_app. simpl. by rewrite <- !app_assoc.
Qed.

(** What a socket already in the room and the joining socket each receive. *)
Lemma dist_join_order (A B : string) (userData : JoinData.t) (env : Env) (w : World) :
  store_wf (store w) ->
  mem B (general w) = true -> B <> A ->
  exists su us msgs,
    received A (emitted w (DistServer.join A userData env w))
    = [Ev.recentMessages msgs; Ev.onlineUsers us; Ev.joinSuccess su us msgs]
    /\ received B (emitted w (DistServer.join A userData env w))
       = [Ev.userJoined su us].
Proof.
  intros Hwf HB Hne.
  destruct (dist_join_emits A userData env w Hwf) as (su & us & msgs & ->).
  exists su, us, msgs. unfold received. simpl.
  rewrite mem_remove_self, (mem_remove_other A B) by done.
  rewrite mem_add, HB, orb_true_r.
  rewrite String.eqb_refl. simpl.
  destruct (String.eqb_spec B A); [done|]. by simpl.
Qed.

(** The first [server.ts] emits the same four events in the same order. *)
Lemma v1_join_emits (sid : string) (userData : JoinData.t) (env : Env) (w : World) :
  store_wf (store w) ->
  emitted w (ServerV1.join sid userData env w)
  = emitted w (DistServer.join sid userData env w).
Proof.
  intros Hwf. destruct (join_register_user sid userData env w Hwf) as (r & user & st1 & E).
  unfold ServerV1.join, DistServer.join. by rewrite E.
Qed.

(** The second [server.ts], on a well-formed store: [userJoined] comes
    first and goes to every connected socket, the joining one included;
    [recentMessages] follows, and nothing else. *)
Lemma v2_join_emits (sid : string) (userData : JoinData.t) (env : Env) (w : World) :
  store_wf (store w) ->
  exists su us msgs,
    emitted w (ServerV2.join sid userData env w)
    = [ mkEmit (sockets w) (Ev.userJoined su us);
        mkEmit [sid] (Ev.recentMessages msgs) ].
Proof.
  intros Hwf. destruct (join_register_user sid userData env w Hwf) as (r & user & st1 & E).
  unfold ServerV2.join. rewrite E.
  do 3 eexists. apply emitted_app. simpl. by rewrite <- !app_assoc.
Qed.

(** The same on the sample world: socket ["B"] is in the room and socket
    ["A"] joins as a new user. ["A"] receives the [userJoined] of its own
    arrival first, and neither [onlineUsers] nor [joinSuccess]. *)
Lemma v2_join_sample :
  let su := {| SocketUser.user := Some (newUser "bob" "b.png" envJ);
               SocketUser.socketId := "A" |} in
  let sb := {| SocketUser.user := Some alice; SocketUser.socketId := "B" |} in
  emitted worldAB (ServerV2.join "A" bob envJ worldAB)
  = [ mkEmit ["B"; "A"] (Ev.userJoined su [sb; su]);
      mkEmit ["A"] (Ev.recentMessages []) ]
  /\ received "A" (emitted worldAB (ServerV2.join "A" bob envJ worldAB))
     = [Ev.userJoined su [sb; su]; Ev.recentMessages []].
Proof. split; reflexivity. Qed.

Lemma store0_wf : store_wf store0.
Proof.
  split.
  - apply NoDup_singleton.
  - constructor; [|constructor]. exists alice. by split.
Qed.

Lemma mem_self (sid : string) : mem sid [sid] = true.
Proof. unfold mem. simpl. by rewrite String.eqb_refl. Qed.

(** Four emits, the first three to [A] alone and the fourth a [userJoined]
    that does not reach [A], are in the order of a join. *)
Lemma join_order_four (A B : string) (others : list string) (su : SocketUser.t)
  (us : list SocketUser.t) (msgs : list MessageJson) :
  mem A others = false ->
  join_order A B
    [ mkEmit [A] (Ev.recentMessages msgs);
      mkEmit [A] (Ev.onlineUsers us);
      mkEmit [A] (Ev.joinSuccess su us msgs);
      mkEmit others (Ev.userJoined su us) ].
Proof.
  intros Hout. split.
  - exists 0%nat, 1%nat, 2%nat. split; [lia|].
    split; [|split; [|split]];
      try (eexists; split; [reflexivity|]; split; [apply mem_self|reflexivity]).
    intros l (e & Hl & _ & Hn).
    destruct l as [|[|[|l]]]; simpl in Hl; try (injection Hl as <-; discriminate Hn).
    lia.
  - intros l (e & Hl & Hm & Hn).
    destruct l as [|[|[|[|l]]]]; simpl in Hl; try (injection Hl as <-);
      try discriminate Hn; try discriminate Hl.
    simpl in Hm. congruence.
Qed.

Lemma dist_join_keeps_order : keeps_join_order DistServer.join.
Proof.
  intros A B userData env w Hwf _ _ _.
  destruct (dist_join_emits A userData env w Hwf) as (su & us & msgs & ->).
  apply join_order_four, mem_remove_self.
Qed.

Lemma v1_join_keeps_order : keeps_join_order ServerV1.join.
Proof.
  intros A B userData env w Hwf HA HB Hne. rewrite v1_join_emits by done.
  by apply dist_join_keeps_order.
Qed.

(** C2 as stated fails for the second [server.ts]: with socket ["B"] in the
    room and socket ["A"] joining, the first emit of the handler is a
    [userJoined] that reaches ["A"]. *)
Lemma v2_join_breaks_order : ~ keeps_join_order ServerV2.join.
Proof.
  intros H.
  destruct (H "A" "B" bob envJ worldAB store0_wf eq_refl eq_refl) as [_ Hno];
    [discriminate|].
  apply (Hno 0%nat). eexists. split; [reflexivity|]. split; reflexivity.
Qed.

(** C2, amended: in [dist/server.js], in the [server.ts] it comes from and
    in the first [server.ts], a join emits [recentMessages], [onlineUsers]
    and [joinSuccess] to the joining socket alone, in that order, and then
    [userJoined] to the room without the joining socket, and nothing else; so
    the joining socket gets its three events before any other socket hears of
    the arrival, and never the [userJoined] of its own arrival. The second
    [server.ts] has no [onlineUsers] and no [joinSuccess]: it emits
    [userJoined] to every connected socket and then [recentMessages] to the
    joining one. *)
Theorem join_order_by_server :
  keeps_join_order DistServer.join
  /\ keeps_join_order ServerV1.join
  /\ (forall sid userData env w,
        store_wf (store w) ->
        exists su us msgs,
          emitted w (DistServer.join sid userData env w)
          = [ mkEmit [sid] (Ev.recentMessages msgs);
              mkEmit [sid] (Ev.onlineUsers us);
              mkEmit [sid] (Ev.joinSuccess su us msgs);
              mkEmit (remove sid (add sid (general w))) (Ev.userJoined su us) ]
          /\ emitted w (ServerV1.join sid userData env w)
             = emitted w (DistServer.join sid userData env w))
  /\ (forall sid userData env w,
        store_wf (store w) ->
        exists su us msgs,
          emitted w (ServerV2.join sid userData env w)
          = [ mkEmit (sockets w) (Ev.userJoined su us);
              mkEmit [sid] (Ev.recentMessages msgs) ]).
Proof.
  split; [exact dist_join_keeps_order|]. split; [exact v1_join_keeps_order|]. split.
  - intros sid userData env w Hwf.
    destruct (dist_join_emits sid userData env w Hwf) as (su & us & msgs & E).
    exists su, us, msgs. split; [exact E|]. by apply v1_join_emits.
  - exact v2_join_emits.
Qed.

Lemma join_order_by_server_witness :
  join_order "A" "B" (emitted worldAB (DistServer.join "A" bob envJ worldAB))
  /\ received "A" (emitted worldAB (DistServer.join "A" bob envJ worldAB))
     = [ Ev.recentMessages [];
         Ev.onlineUsers (values (connectedUsers (DistServer.join "A" bob envJ worldAB)));
         Ev.joinSuccess
           {| SocketUser.user := Some (newUser "bob" "b.png" envJ);
              SocketUser.socketId := "A" |}
           (values (connectedUsers (DistServer.join "A" bob envJ worldAB))) [] ].
Proof.
  destruct join_order_by_server as (Hd & _ & _ & _). split.
  - apply Hd; [exact store0_wf|reflexivity|reflexivity|discriminate].
  - reflexivity.
Defined.

(** ** One user per name *)

Lemma dist_join_store (sid : string) (userData : JoinData.t) (env : Env) (w : World) :
  store (DistServer.join sid userData env w)
  = store (snd (join_register sid userData env w))
  /\ connectedUsers (DistServer.join sid userData env w)
     = connectedUsers (snd (join_register sid userData env w)).
Proof.
  unfold DistServer.join.
  destruct (join_register sid userData env w) as [[[r|] su] w1]; by simpl.
Qed.

Lemma sendMessage_users (sid : string) (messageData : option SendData.t) (env : Env)
  (w : World) :
  heap (store (DistServer.sendMessage sid messageData env w)) = heap (store w)
  /\ users (store (DistServer.sendMessage sid messageData env w)) = users (store w).
Proof.
  unfold DistServer.sendMessage.
  destruct (get sid (connectedUsers w)) as [user|]; [|done].
  destruct messageData as [messageData|]; [|done].
  destruct (DistStore.createMessage _ _ _) as [[m|] st1] eqn:E.
  - apply (createMessage_pushes Dist) in E as [-> _].
    destruct (is_string _); simpl; by autorewrite with store.
  - by apply (createMessage_failure Dist) in E as ->.
Qed.

(** Case analysis on an event of [dist/server.js]. *)
Ltac event_cases e :=
  destruct e as [[sid|sid userData|sid messageData|sid isTyping|sid|] env];
  simpl in *.

Section Owner.

(** A name and the [id] of the user that holds it. *)
Variables (name uid : string).

Lemma owns_find (st : DataStore) :
  owns st name uid ->
  exists r user,
    findUserByUsername st name = Some r /\ deref st r = Some user
    /\ User.id user = uid /\ User.username user = name
    /\ get uid (users st) = Some r.
Proof.
  intros (Hwf & (r0 & user0 & Hg0 & Hd0 & Hn0) & Hall).
  destruct (findUserByUsername st name) as [r|] eqn:Hf.
  - destruct (find_user_wf st name r Hwf Hf) as (user & Hd & Hn & Hg).
    exists r, user. split; [done|]. split; [done|].
    rewrite Forall_forall in Hall.
    assert (User.id user = uid) as Hid.
    { apply (Hall (User.id user, r)) with user; [|done|done].
      apply list_elem_of_In. by apply get_In. }
    by rewrite <- Hid.
  - exfalso. eapply find_user_complete; [| exact Hd0 | exact Hn0 | exact Hf].
    apply get_In in Hg0. by apply (in_map snd) in Hg0.
Qed.

(** [owns] reads the heap and [users] only. *)
Lemma owns_ext (st st' : DataStore) :
  heap st' = heap st -> users st' = users st -> owns st name uid -> owns st' name uid.
Proof. unfold owns, store_wf, deref. by intros -> ->. Qed.

(** A new object under its [id], for another user or for the holder under
    the same name, keeps the holder of [name]. *)
Lemma owns_set (st : DataStore) (new : User.t)
  (msgs : list (Message.t ref)) (rs : Map Room.t) (dk : Disk) :
  owns st name uid ->
  (User.username new = name <-> User.id new = uid) ->
  owns (mkStore (heap st ++ [new]) (set (User.id new) (length (heap st)) (users st))
                msgs rs dk) name uid.
Proof.
  intros (Hwf & (r0 & user0 & Hg0 & Hd0 & Hn0) & Hall) Hiff.
  split; [by apply store_wf_set|]. split; simpl.
  - destruct (string_dec (User.id new) uid) as [Hid|Hid].
    + exists (length (heap st)), new. rewrite Hid, get_set_eq.
      split; [done|]. split; [apply deref_alloc_new|]. by apply Hiff.
    + exists r0, user0. rewrite get_set_ne by done.
      split; [done|]. split; [|done]. by apply deref_alloc_old.
  - apply set_Forall; simpl.
    + intros user. unfold deref. simpl. rewrite deref_alloc_new.
      intros [= <-] Hn. by apply Hiff.
    + destruct Hwf as [_ Hrefs].
      rewrite Forall_forall in Hall, Hrefs. apply Forall_forall.
      intros [k r] Hin user. simpl. unfold deref. simpl. intros Hd Hn.
      destruct (Hrefs _ Hin) as (user' & Hd' & _). simpl in Hd'.
      rewrite (deref_alloc_old st new r user' Hd') in Hd. injection Hd as <-.
      by apply (Hall _ Hin user').
Qed.

Lemma owns_saveData (st : DataStore) :
  owns st name uid -> owns (saveData st) name uid.
Proof. apply owns_ext; [apply saveData_heap|apply saveData_users]. Qed.

Lemma owns_createUser (st : DataStore) (username avatar : string) (env : Env) :
  owns st name uid -> username <> name -> uuid env <> uid ->
  owns (snd (createUser st username avatar env)) name uid.
Proof.
  intros Ho Hn Hu. unfold createUser. simpl. apply owns_saveData.
  apply (owns_set st (newUser username avatar env)); [done|].
  simpl. split; intros; done.
Qed.

Lemma owns_updateUser (st : DataStore) (id : string) (updates : PartialUser.t) :
  owns st name uid ->
  PartialUser.id updates = None -> PartialUser.username updates = None ->
  owns (snd (updateUser st id updates)) name uid.
Proof.
  intros Ho Hi Hn. unfold updateUser.
  destruct (get id (users st)) as [r|] eqn:Hg; simpl; [|done].
  destruct (deref st r) as [user|] eqn:Hd; simpl; [|done].
  apply owns_saveData.
  destruct Ho as (Hwf & Hex & Hall).
  destruct (wf_entry st id r Hwf (get_In _ _ _ Hg)) as (_ & user' & Hd' & Hid).
  rewrite Hd in Hd'. injection Hd' as <-.
  pose proof (owns_set st (spread user updates) (messages st) (rooms st)
                (disk st) (conj Hwf (conj Hex Hall))) as H.
  rewrite spread_id, Hid in H by done. apply H.
  simpl. rewrite Hn. simpl. split.
  - intros Hname. rewrite Forall_forall in Hall.
    apply (Hall (id, r)) with user; [|done|done].
    apply list_elem_of_In. by apply get_In.
  - intros ->. destruct Hex as (r0 & user0 & Hg0 & Hd0 & Hn0).
    rewrite Hg in Hg0. injection Hg0 as <-. rewrite Hd in Hd0. by injection Hd0 as <-.
Qed.

Lemma owns_join (sid : string) (userData : JoinData.t) (env : Env) (w : World) :
  owns (store w) name uid -> uuid env <> uid ->
  owns (store (DistServer.join sid userData env w)) name uid.
Proof.
  intros Ho Hu. destruct (dist_join_store sid userData env w) as [-> _].
  destruct (findUserByUsername (store w) (JoinData.username userData)) as [r|] eqn:Hf.
  - destruct (find_user_wf _ _ _ (proj1 Ho) Hf) as (found & Hd & _ & Hg).
    rewrite (join_register_returning sid userData env w r found Hf Hd Hg). simpl.
    by apply owns_updateUser.
  - rewrite (join_register_new sid userData env w Hf). simpl.
    apply owns_createUser; [done| |done].
    intros Heq. destruct (owns_find _ Ho) as (r & _ & Hf' & _).
    rewrite Heq in Hf. congruence.
Qed.

(** No event takes the name from its holder, as long as [uuid] does not
    hand out the [id] of the holder again. *)
Lemma owns_step (w : World) (e : DistServer.Event * Env) :
  owns (store w) name uid -> uuid (snd e) <> uid ->
  owns (store (DistServer.step w e)) name uid.
Proof.
  intros Ho Hu. event_cases e.
  - done.
  - by apply owns_join.
  - destruct (sendMessage_users sid messageData env w) as [Hh Hus].
    by apply (owns_ext (store w)).
  - unfold DistServer.typing. by destruct (get sid (connectedUsers w)).
  - destruct (get sid (connectedUsers w)) as [user|] eqn:Hs.
    + rewrite (on_disconnect_session sid env w user Hs). simpl.
      destruct (SocketUser.id user); [|done]. by apply owns_updateUser.
    + by rewrite on_disconnect_no_session.
  - destruct (cleanup_users (store w) env) as [Hus Hh].
    by apply (owns_ext (store w)).
Qed.

Lemma owns_run (evs : list (DistServer.Event * Env)) (w : World) :
  owns (store w) name uid ->
  Forall (fun e => uuid (snd e) <> uid) evs ->
  owns (store (DistServer.run evs w)) name uid.
Proof.
  revert w. induction evs as [|e evs IH]; intros w Ho Hall; simpl; [done|].
  apply Forall_cons in Hall as [He Hall].
  apply IH; [|done]. by apply owns_step.
Qed.

End Owner.

(** The first join under a name: one entry more, last in [users], under
    the new [id], and its user is the holder of the name. *)
Lemma join_new_name (sid : string) (userData : JoinData.t) (env : Env) (w : World) :
  store_wf (store w) ->
  findUserByUsername (store w) (JoinData.username userData) = None ->
  get (uuid env) (users (store w)) = None ->
  keys (users (store (DistServer.join sid userData env w)))
  = keys (users (store w)) ++ [uuid env]
  /\ record (store (DistServer.join sid userData env w)) (uuid env)
     = Some (newUser (JoinData.username userData) (JoinData.avatar userData) env)
  /\ owns (store (DistServer.join sid userData env w))
          (JoinData.username userData) (uuid env).
Proof.
  intros Hwf Hf Hfresh. destruct (dist_join_store sid userData env w) as [-> _].
  rewrite (join_register_new sid userData env w Hf). simpl.
  rewrite saveData_users. simpl. rewrite keys_set, Hfresh.
  split; [done|]. split.
  - unfold record, findUserById. rewrite saveData_users. simpl.
    rewrite get_set_eq. simpl. apply deref_saved_alloc.
  - apply owns_saveData. split; [exact (store_wf_set _ _ _ _ _ Hwf)|]. split; simpl.
    + exists (length (heap (store w))), (newUser (JoinData.username userData)
                                                  (JoinData.avatar userData) env).
      rewrite get_set_eq. split; [done|]. split; [apply deref_alloc_new|done].
    + apply set_Forall; simpl; [done|].
      destruct Hwf as [_ Hrefs]. rewrite Forall_forall in Hrefs. apply Forall_forall.
      intros [k r] Hin user. simpl. unfold deref. simpl. intros Hd Hn.
      destruct (Hrefs _ Hin) as (user' & Hd' & _). simpl in Hd'.
      rewrite (deref_alloc_old _ _ r user' Hd') in Hd. injection Hd as <-.
      exfalso. eapply find_user_complete; [| exact Hd' | exact Hn | exact Hf].
      apply list_elem_of_In in Hin. by apply (in_map snd) in Hin.
Qed.

(** A join under a name that has a holder: the same keys, the record of the
    holder updated, and a session that carries it. *)
Lemma join_known_name (sid : string) (userData : JoinData.t) (env : Env) (w : World)
  (uid : string) :
  owns (store w) (JoinData.username userData) uid ->
  exists current,
    record (store w) uid = Some current
    /\ keys (users (store (DistServer.join sid userData env w))) = keys (users (store w))
    /\ record (store (DistServer.join sid userData env w)) uid
       = Some (spread current (online (JoinData.avatar userData) env))
    /\ get sid (connectedUsers (DistServer.join sid userData env w))
       = Some {| SocketUser.user :=
                   Some (spread current (online (JoinData.avatar userData) env));
                 SocketUser.socketId := sid |}.
Proof.
  intros Ho. destruct (owns_find _ _ _ Ho) as (r & current & Hf & Hd & Hid & _ & Hg).
  exists current. destruct (dist_join_store sid userData env w) as [-> ->].
  assert (Hrec : record (store w) uid = Some current).
  { unfold record, findUserById. by rewrite Hg. }
  rewrite <- Hid in Hg.
  rewrite (join_register_returning sid userData env w r current Hf Hd Hg). simpl.
  rewrite Hid in *.
  split; [done|]. split; [|split].
  - rewrite (updateUser_found _ _ _ r current Hg Hd). simpl.
    rewrite saveData_users. simpl. by rewrite keys_set, Hg.
  - by apply updateUser_record.
  - apply get_set_eq.
Qed.

(** C7: a join under a name that no user holds creates one record, under
    the new [id]; after any events whatever, every join under that name, from
    any socket, finds that record: [users] keeps its keys, the session carries
    the [id] of the record, and the record is the one of before with
    [isOnline = true], the avatar of the join and [lastSeen = now]. The ids
    that [uuid] hands out later differ from the one of the record. *)
Theorem join_determinism (sid : string) (userData : JoinData.t) (env : Env) (w : World) :
  store_wf (store w) ->
  findUserByUsername (store w) (JoinData.username userData) = None ->
  get (uuid env) (users (store w)) = None ->
  let w1 := DistServer.join sid userData env w in
  size (users (store w1)) = S (size (users (store w)))
  /\ keys (users (store w1)) = keys (users (store w)) ++ [uuid env]
  /\ record (store w1) (uuid env)
     = Some (newUser (JoinData.username userData) (JoinData.avatar userData) env)
  /\ forall evs sid' avatar' env',
       Forall (fun e => uuid (snd e) <> uuid env) evs ->
       let w2 := DistServer.run evs w1 in
       let again := {| JoinData.username := JoinData.username userData;
                       JoinData.avatar := avatar' |} in
       let w3 := DistServer.join sid' again env' w2 in
       exists current,
         record (store w2) (uuid env) = Some current
         /\ User.id current = uuid env
         /\ keys (users (store w3)) = keys (users (store w2))
         /\ record (store w3) (uuid env)
            = Some {| User.id := uuid env;
                      User.username := JoinData.username userData;
                      User.avatar := avatar';
                      User.isOnline := true;
                      User.lastSeen := DateMs (now env');
                      User.createdAt := User.createdAt current |}
         /\ (SocketUser.id <$> get sid' (connectedUsers w3)) = Some (Some (uuid env)).
Proof.
  intros Hwf Hf Hfresh w1.
  destruct (join_new_name sid userData env w Hwf Hf Hfresh) as (Hk & Hr & Ho).
  split; [|split; [done|split; [done|]]].
  - unfold size. rewrite <- !(length_map fst). fold (keys (users (store w1))).
    fold (keys (users (store w))). subst w1. rewrite Hk, length_app. simpl. lia.
  - intros evs sid' avatar' env' Hevs w2 again w3. subst w1 w2 w3.
    pose proof (owns_run _ _ evs _ Ho Hevs) as Ho2.
    destruct (join_known_name sid' again env' _ (uuid env) Ho2)
      as (current & Hrec & Hkeys & Hrec' & Hsess).
    destruct (owns_find _ _ _ Ho2) as (r & current' & _ & Hd & Hid & Hname & Hg).
    assert (current' = current) as ->.
    { unfold record, findUserById in Hrec. rewrite Hg in Hrec. simpl in Hrec. congruence. }
    exists current. split; [done|]. split; [done|]. split; [done|]. split.
    + rewrite Hrec'. unfold spread. simpl. by rewrite <- Hid, <- Hname.
    + rewrite Hsess. unfold SocketUser.id. simpl. by rewrite Hid.
Qed.

Lemma join_determinism_witness :
  let w1 := DistServer.join "A" bob envJ worldAB in
  let w2 := DistServer.run [(DistServer.evDisconnect "A", mkEnv 8000 "x");
                            (DistServer.evConnection "C", mkEnv 8500 "y")] w1 in
  let w3 := DistServer.join "C" {| JoinData.username := "bob"; JoinData.avatar := "c.png" |}
                            (mkEnv 9000 "u3") w2 in
  size (users (store w1)) = 2%nat
  /\ keys (users (store w3)) = ["u1"; "u2"]
  /\ record (store w3) "u2"
     = Some {| User.id := "u2"; User.username := "bob"; User.avatar := "c.png";
               User.isOnline := true; User.lastSeen := DateMs 9000;
               User.createdAt := DateMs 7000 |}.
Proof.
  intros w1 w2 w3.
  destruct (join_determinism "A" bob envJ worldAB store0_wf eq_refl eq_refl)
    as (Hsize & _ & _ & Hagain).
  destruct (Hagain [(DistServer.evDisconnect "A", mkEnv 8000 "x");
                    (DistServer.evConnection "C", mkEnv 8500 "y")]
                   "C" "c.png" (mkEnv 9000 "u3"))
    as (current & Hcur & _ & Hkeys & Hrec & _).
  - repeat constructor; discriminate.
  - split; [exact Hsize|]. split; [reflexivity|].
    assert (Some current = Some (spread (newUser "bob" "b.png" envJ) (offline (mkEnv 8000 "x"))))
      as [= ->] by (rewrite <- Hcur; reflexivity).
    exact Hrec.
Defined.

(** ** The invariants hold along every run *)

Lemma store_wf_closed (st : DataStore) : store_wf st -> heap_closed st.
Proof.
  intros [_ Hall]. unfold heap_closed. eapply Forall_impl; [exact Hall|].
  intros [k r] (user & Hd & _). simpl in *. by eapply lookup_lt_Some.
Qed.

Lemma join_wf (sid : string) (userData : JoinData.t) (env : Env) (w : World) :
  store_wf (store w) -> store_wf (store (DistServer.join sid userData env w)).
Proof.
  intros Hwf. destruct (dist_join_store sid userData env w) as [-> _].
  destruct (findUserByUsername (store w) (JoinData.username userData)) as [r|] eqn:Hf.
  - destruct (find_user_wf _ _ _ Hwf Hf) as (found & Hd & _ & Hg).
    rewrite (join_register_returning sid userData env w r found Hf Hd Hg). simpl.
    by apply updateUser_wf.
  - rewrite (join_register_new sid userData env w Hf). simpl.
    by apply createUser_wf.
Qed.

Lemma step_wf (w : World) (e : DistServer.Event * Env) :
  store_wf (store w) -> store_wf (store (DistServer.step w e)).
Proof.
  intros Hwf. event_cases e.
  - done.
  - by apply join_wf.
  - destruct (sendMessage_users sid messageData env w) as [Hh Hus].
    unfold store_wf, deref. by rewrite Hh, Hus.
  - unfold DistServer.typing. by destruct (get sid (connectedUsers w)).
  - destruct (get sid (connectedUsers w)) as [user|] eqn:Hs.
    + rewrite (on_disconnect_session sid env w user Hs). simpl.
      destruct (SocketUser.id user); [|done]. by apply updateUser_wf.
    + by rewrite on_disconnect_no_session.
  - destruct (cleanup_users (store w) env) as [Hus Hh].
    unfold store_wf, deref. by rewrite Hh, Hus.
Qed.

Lemma run_wf (evs : list (DistServer.Event * Env)) (w : World) :
  store_wf (store w) -> store_wf (store (DistServer.run evs w)).
Proof.
  revert w. induction evs as [|e evs IH]; intros w Hwf; simpl; [done|].
  by apply IH, step_wf.
Qed.

(** The three [join] handlers do the same to the store and to the
    sessions. *)
Lemma join_store_same (sid : string) (userData : JoinData.t) (env : Env) (w : World) :
  store (ServerV1.join sid userData env w) = store (DistServer.join sid userData env w)
  /\ store (ServerV2.join sid userData env w) = store (DistServer.join sid userData env w)
  /\ connectedUsers (ServerV1.join sid userData env w)
     = connectedUsers (DistServer.join sid userData env w)
  /\ connectedUsers (ServerV2.join sid userData env w)
     = connectedUsers (DistServer.join sid userData env w).
Proof.
  unfold ServerV1.join, ServerV2.join, DistServer.join.
  destruct (join_register sid userData env w) as [[[r|] su] w1]; by simpl.
Qed.

(** * Further properties of the store *)

(** ** [getRecentMessages] with a limit of at least 1 *)

(** X1: for a limit of at least 1, [getRecentMessages] returns the end of
    the history, in the order of the history: the last [limit] messages, or
    all of them when there are fewer. *)
Theorem recent_messages_are_latest (st : DataStore) (limit : Z) :
  0 < limit ->
  exists older,
    messages st = older ++ getRecentMessages st limit
    /\ length (getRecentMessages st limit)
       = Nat.min (Z.to_nat limit) (length (messages st)).
Proof.
  intros Hl. destruct (getRecentMessages_pos st limit Hl) as [E Hlen].
  exists (take (length (messages st) - Z.to_nat limit) (messages st)).
  split; [|exact Hlen]. rewrite E. symmetry. apply take_drop.
Qed.

Lemma recent_messages_are_latest_witness :
  exists older,
    messages store2 = older ++ getRecentMessages store2 1
    /\ length (getRecentMessages store2 1) = 1%nat.
Proof. apply (recent_messages_are_latest store2 1). reflexivity. Defined.

(** ** [updateUser] and [createUser] *)

Lemma record_alloc_old (st : DataStore) (new : User.t)
  (msgs : list (Message.t ref)) (rs : Map Room.t) (dk : Disk) (k id : string)
  (user : User.t) :
  k <> id -> record st id = Some user ->
  record (saveData (mkStore (heap st ++ [new]) (set k (length (heap st)) (users st))
                            msgs rs dk)) id
  = Some user.
Proof.
  intros Hne. unfold record, findUserById, deref. autorewrite with store. simpl.
  rewrite get_set_ne by done.
  destruct (get id (users st)) as [r|]; simpl; [|done].
  apply lookup_app_l_Some.
Qed.

Lemma updateUser_keys (st : DataStore) (id : string) (updates : PartialUser.t) :
  keys (users (snd (updateUser st id updates))) = keys (users st).
Proof.
  unfold updateUser. destruct (get id (users st)) as [r|] eqn:Hg; simpl; [|done].
  destruct (deref st r); simpl; [|done].
  autorewrite with store. simpl. by rewrite keys_set, Hg.
Qed.



Lemma lookup_alloc_new (h : list User.t) (new : User.t) :
  (h ++ [new]) !! length h = Some new.
Proof. by rewrite lookup_app_r, Nat.sub_diag. Qed.

Lemma find_after_alloc (h : list User.t) (new : User.t) (name k : string) (l : Map ref) :
  User.username new = name ->
  List.find (fun r => match h !! r with
                      | Some user => String.eqb (User.username user) name
                      | None => false
                      end) (values l) = None ->
  List.find (fun r => match (h ++ [new]) !! r with
                      | Some user => String.eqb (User.username user) name
                      | None => false
                      end) (values (set k (length h) l))
  = Some (length h).
Proof.
  intros Hn. induction l as [|[k' r0] l IH]; simpl.
  - intros _. by rewrite lookup_alloc_new, Hn, String.eqb_refl.
  - destruct (h !! r0) as [u0|] eqn:Hr0.
    + destruct (String.eqb (User.username u0) name) eqn:E0; [done|]. intros Hrest.
      destruct (String.eqb k' k); simpl.
      * by rewrite lookup_alloc_new, Hn, String.eqb_refl.
      * rewrite (lookup_app_l_Some _ _ _ _ Hr0), E0. by apply IH.
    + intros Hrest. destruct (String.eqb k' k); simpl.
      * by rewrite lookup_alloc_new, Hn, String.eqb_refl.
      * apply lookup_ge_None in Hr0.
        destruct (decide (r0 = length h)) as [->|Hne].
        -- by rewrite lookup_alloc_new, Hn, String.eqb_refl.
        -- rewrite (proj2 (lookup_ge_None (h ++ [new]) r0)); [by apply IH|].
           rewrite length_app. simpl. lia.
Qed.

(** X3: [createUser] stores the new user under its new [id]: the object
    returned, and the record found by that [id], has the new [id], the name
    and the avatar given, [isOnline] true, and the time of the call as
    [lastSeen] and [createdAt]; when nobody held the name, a search by name
    finds that object too. The
    key is appended to [users] (or replaces the entry of the same [id]), the
    history is untouched and so is every record under another [id]. *)
Theorem createUser_lookup (st : DataStore) (username avatar : string) (env : Env) :
  let user := {| User.id := uuid env;
                 User.username := username;
                 User.avatar := avatar;
                 User.isOnline := true;
                 User.lastSeen := DateMs (now env);
                 User.createdAt := DateMs (now env) |} in
  let r := fst (createUser st username avatar env) in
  let st' := snd (createUser st username avatar env) in
  deref st' r = Some user
  /\ record st' (uuid env) = Some user
  /\ keys (users st') = match get (uuid env) (users st) with
                        | Some _ => keys (users st)
                        | None => keys (users st) ++ [uuid env]
                        end
  /\ messages st' = messages st
  /\ (findUserByUsername st username = None -> findUserByUsername st' username = Some r)
  /\ (forall id other,
        id <> uuid env -> record st id = Some other -> record st' id = Some other).
Proof.
  intros user r st'. subst user r st'. unfold createUser. simpl.
  split; [apply deref_saved_alloc|]. split; [|split; [|split; [|split]]].
  - unfold record, findUserById. autorewrite with store. simpl.
    rewrite get_set_eq. simpl. apply deref_saved_alloc.
  - autorewrite with store. simpl. apply keys_set.
  - by autorewrite with store.
  - intros Hf. unfold findUserByUsername, deref in *. autorewrite with store. simpl.
    by apply find_after_alloc.
  - intros id other Hne Ho. apply record_alloc_old; [|done].
    intros E. apply Hne. by symmetry.
Qed.

Lemma createUser_lookup_witness :
  findUserByUsername (snd (createUser store0 "bob" "b.png" envJ)) "bob"
  = Some (fst (createUser store0 "bob" "b.png" envJ))
  /\ record (snd (createUser store0 "bob" "b.png" envJ)) "u1" = Some alice
  /\ record (snd (createUser store0 "bob" "b.png" envJ)) "u2"
     = Some {| User.id := "u2"; User.username := "bob"; User.avatar := "b.png";
               User.isOnline := true; User.lastSeen := DateMs 7000;
               User.createdAt := DateMs 7000 |}.
Proof.
  destruct (createUser_lookup store0 "bob" "b.png" envJ) as (_ & Hr & _ & _ & Hf & Ho).
  split; [apply Hf; reflexivity|]. split; [apply Ho; [discriminate|reflexivity]|].
  exact Hr.
Defined.

(** ** Users are never removed *)

Lemma set_keys_prefix {V : Type} (k : string) (v : V) (m : Map V) :
  keys m `prefix_of` keys (set k v m).
Proof.
  rewrite keys_set. destruct (get k m); [done|]. by apply prefix_app_r.
Qed.

Lemma exec_keys_grow (st : DataStore) (c : StoreOp * Env) :
  keys (users st) `prefix_of` keys (users (exec st c)).
Proof.
  destruct c as [[] env]; simpl; try done.
  - autorewrite with store. simpl. apply set_keys_prefix.
  - by rewrite updateUser_keys.
  - destruct (createMessageOf impl st messageData env) as [[m|] st'] eqn:E; simpl.
    + apply createMessage_pushes in E as [-> _]. by autorewrite with store.
    + by apply createMessage_failure in E as ->.
  - by autorewrite with store.
  - by destruct (cleanup_users st env) as [-> _].
Qed.

Lemma join_keys_grow (sid : string) (userData : JoinData.t) (env : Env) (w : World) :
  keys (users (store w)) `prefix_of` keys (users (store (DistServer.join sid userData env w))).
Proof.
  destruct (dist_join_store sid userData env w) as [-> _].
  unfold join_register.
  destruct (findUserByUsername (store w) (JoinData.username userData)) as [r|].
  - destruct (deref (store w) r) as [user|]; simpl; [|done].
    destruct (updateUser (store w) (User.id user) _) as [u st1] eqn:E. simpl.
    replace st1 with (snd (updateUser (store w) (User.id user)
                                      (online (JoinData.avatar userData) env)))
      by (by rewrite E).
    by rewrite updateUser_keys.
  - simpl. autorewrite with store. simpl. apply set_keys_prefix.
Qed.

Lemma step_keys_grow (w : World) (e : DistServer.Event * Env) :
  keys (users (store w)) `prefix_of` keys (users (store (DistServer.step w e))).
Proof.
  event_cases e.
  - done.
  - apply join_keys_grow.
  - by destruct (sendMessage_users sid messageData env w) as [_ ->].
  - unfold DistServer.typing. by destruct (get sid (connectedUsers w)).
  - destruct (get sid (connectedUsers w)) as [user|] eqn:Hs.
    + rewrite (on_disconnect_session sid env w user Hs). simpl.
      destruct (SocketUser.id user); [|done]. by rewrite updateUser_keys.
    + by rewrite on_disconnect_no_session.
  - by destruct (cleanup_users (store w) env) as [-> _].
Qed.

(** X4: no call of the store and no event of the server removes a user or
    reorders the users: the keys of [users] before are the first keys of
    [users] after, in the same order. *)
Theorem users_never_removed :
  (forall cs st, keys (users st) `prefix_of` keys (users (exec_all cs st)))
  /\ (forall evs w,
        keys (users (store w)) `prefix_of` keys (users (store (DistServer.run evs w)))).
Proof.
  split.
  - induction cs as [|c cs IH]; intros st; simpl; [done|].
    etransitivity; [apply exec_keys_grow|apply IH].
  - induction evs as [|e evs IH]; intros w; simpl; [done|].
    etransitivity; [apply step_keys_grow|apply IH].
Qed.

(** ** Persistence *)

Lemma saveData_synced (st : DataStore) :
  writable (disk st) = true -> synced (saveData st).
Proof.
  intros Hw. unfold synced. rewrite saveData_written by done. simpl.
  unfold userObjects, deref. autorewrite with store.
  split; [done|]. split; [|done].
  apply map_ext. intros m. symmetry. apply saveData_serialize.
Qed.

Lemma exec_changes_synced (st : DataStore) (c : StoreOp * Env) :
  writable (disk st) = true -> exec st c = st \/ synced (exec st c).
Proof.
  intros Hw. destruct c as [[] env]; simpl; try (by left).
  - right. by apply saveData_synced.
  - unfold updateUser. destruct (_ ≫= _); simpl; [|by left].
    right. by apply saveData_synced.
  - destruct (createMessageOf impl st messageData env) as [[m|] st'] eqn:E; simpl.
    + apply createMessage_pushes in E as [-> _]. right. by apply saveData_synced.
    + apply createMessage_failure in E as ->. by left.
  - right. by apply saveData_synced.
  - right. by apply saveData_synced.
Qed.

Lemma exec_readonly (st : DataStore) (c : StoreOp * Env) :
  writable (disk st) = false -> disk (exec st c) = disk st.
Proof.
  intros Hw. destruct c as [[] env]; simpl; try done.
  - by rewrite saveData_readonly.
  - unfold updateUser. destruct (_ ≫= _); simpl; [|done]. by rewrite saveData_readonly.
  - destruct (createMessageOf impl st messageData env) as [[m|] st'] eqn:E; simpl.
    + apply createMessage_pushes in E as [-> _]. unfold pushMessage.
      by rewrite saveData_readonly.
    + by apply createMessage_failure in E as ->.
  - by rewrite saveData_readonly.
  - unfold cleanup. by rewrite saveData_readonly.
Qed.

(** X5: every call that changes the store rewrites the three files before
    it returns: with a data directory that can be written, after a call that
    changed anything the users file holds the users, the messages file the
    last 1000 messages and the rooms file the rooms, as they are in memory;
    so files in step with the memory stay so. With a data directory that
    cannot be written no call changes a file. *)
Theorem files_follow_memory (st : DataStore) (c : StoreOp * Env) :
  (writable (disk st) = true ->
   (exec st c <> st -> synced (exec st c))
   /\ (synced st -> synced (exec st c)))
  /\ (writable (disk st) = false -> disk (exec st c) = disk st).
Proof.
  split; [|apply exec_readonly].
  intros Hw. destruct (exec_changes_synced st c Hw) as [E|Hs].
  - rewrite E. by split.
  - by split.
Qed.

Lemma files_follow_memory_witness :
  synced (exec store0 (opCreateUser "bob" "b.png", envJ))
  /\ usersFile (disk (exec store0 (opCreateUser "bob" "b.png", envJ)))
     = [alice; newUser "bob" "b.png" envJ].
Proof.
  destruct (files_follow_memory store0 (opCreateUser "bob" "b.png", envJ)) as [Hw _].
  destruct (Hw eq_refl) as [Hc _]. split; [|reflexivity].
  apply Hc. discriminate.
Defined.

(** ** Rooms *)

(** X6: [createRoom] stores the room under its new [id], with [isPrivate]
    false unless it was given, and [getAllRooms] lists it: last, after the
    rooms there were, when the [id] is new. Users and messages are
    untouched. *)
Theorem createRoom_listed (st : DataStore) (name : string) (description : option string)
  (isPrivate : option bool) (env : Env) :
  let room := fst (createRoom st name description isPrivate env) in
  let st' := snd (createRoom st name description isPrivate env) in
  get (uuid env) (rooms st') = Some room
  /\ In room (getAllRooms st')
  /\ Room.isPrivate room = default false isPrivate
  /\ (get (uuid env) (rooms st) = None -> getAllRooms st' = getAllRooms st ++ [room])
  /\ users st' = users st /\ messages st' = messages st.
Proof.
  intros room st'. subst room st'. unfold createRoom, getAllRooms. simpl.
  autorewrite with store. simpl.
  split; [apply get_set_eq|]. split; [|split; [done|split; [|done]]].
  - apply (in_map snd _ (uuid env, _)), get_In, get_set_eq.
  - intros Hnew. induction (rooms st) as [|[k v] l IH]; simpl in *; [done|].
    destruct (String.eqb k (uuid env)); [done|]. simpl. by rewrite IH.
Qed.

Lemma createRoom_listed_witness :
  getAllRooms (snd (createRoom store0 "lobby" None None env0))
  = [fst (createRoom store0 "lobby" None None env0)].
Proof.
  destruct (createRoom_listed store0 "lobby" None None env0) as (_ & _ & _ & H & _).
  apply H. reflexivity.
Defined.

(** ** Sweeps compose *)

Lemma filter_filter_newer (msgs : list (Message.t ref)) (t t' : Z) :
  t <= t' ->
  List.filter (fun m => date_gt (Message.createdAt m) (DateMs t'))
    (List.filter (fun m => date_gt (Message.createdAt m) (DateMs t)) msgs)
  = List.filter (fun m => date_gt (Message.createdAt m) (DateMs t')) msgs.
Proof.
  intros Hle. induction msgs as [|m msgs IH]; simpl; [done|].
  destruct (date_gt (Message.createdAt m) (DateMs t)) eqn:E; simpl.
  - by rewrite IH.
  - rewrite IH. unfold date_gt in *.
    destruct (Message.createdAt m) as [ms|]; [|done].
    apply Z.ltb_ge in E. by rewrite (proj2 (Z.ltb_ge t' ms)) by lia.
Qed.

Lemma cleanup_unfold (st : DataStore) (env : Env) :
  cleanup st env
  = saveData (mkStore (heap st) (users st)
                (List.filter (fun m => date_gt (Message.createdAt m)
                                               (DateMs (now env - oneWeek)))
                             (messages st))
                (rooms st) (disk st)).
Proof. reflexivity. Qed.

(** X7: a sweep after a sweep is the later sweep alone: [cleanup] at a
    time, then [cleanup] at the same or a later time, leaves the store,
    memory and files, as the second [cleanup] alone would; in particular
    [cleanup] twice at one time is [cleanup] once. What a sweep keeps is part
    of what there was, in the same order. *)
Theorem cleanup_then_cleanup (st : DataStore) (env env' : Env) :
  now env <= now env' ->
  cleanup (cleanup st env) env' = cleanup st env'
  /\ messages (cleanup st env) `sublist_of` messages st.
Proof.
  intros Hle. split.
  - rewrite (cleanup_unfold (cleanup st env) env').
    destruct (cleanup_users st env) as [-> ->].
    rewrite cleanup_messages, filter_filter_newer by lia.
    unfold cleanup at 1 2. autorewrite with store. simpl.
    destruct (writable (disk st)) eqn:Hw.
    + unfold saveData at 2. simpl. rewrite Hw. rewrite cleanup_unfold.
      unfold saveData. simpl. rewrite Hw. simpl. reflexivity.
    + rewrite (saveData_readonly (mkStore _ _ _ _ (disk st))) by done. reflexivity.
  - rewrite cleanup_messages. induction (messages st) as [|m msgs IH]; simpl; [done|].
    destruct (date_gt _ _); [by apply sublist_skip|by apply sublist_cons].
Qed.

Lemma cleanup_then_cleanup_witness :
  cleanup (cleanup store2 (mkEnv (5500 + oneWeek) "x")) (mkEnv (5500 + oneWeek) "y")
  = cleanup store2 (mkEnv (5500 + oneWeek) "y").
Proof. apply cleanup_then_cleanup. reflexivity. Defined.

(** ** Every message keeps its sender *)

(** A message of the history after a call was there before, or is the one
    the call created. *)
Lemma exec_messages_from (st : DataStore) (c : StoreOp * Env) (m : Message.t ref) :
  In m (messages (exec st c)) ->
  In m (messages st)
  \/ exists impl d st', fst c = opCreateMessage impl d
                        /\ createMessageOf impl st d (snd c) = (Some m, st').
Proof.
  destruct c as [[] env]; simpl; try (by left).
  - autorewrite with store. by left.
  - rewrite updateUser_messages. by left.
  - destruct (createMessageOf impl st messageData env) as [[m'|] st'] eqn:E; simpl.
    + pose proof E as E'. apply createMessage_pushes in E' as [-> _].
      rewrite pushMessage_messages. intros Hin%slice_In.
      apply in_app_or in Hin as [Hin|[<-|[]]]; [by left|].
      right. by exists impl, messageData, (pushMessage st m').
    + apply createMessage_failure in E as ->. by left.
  - autorewrite with store. by left.
  - rewrite cleanup_messages. intros [Hin _]%filter_In. by left.
Qed.

Lemma is_Some_get_keys {V : Type} (k : string) (m : Map V) :
  is_Some (get k m) <-> In k (keys m).
Proof.
  rewrite <- not_eq_None_Some, get_None_keys. split; [|tauto].
  intros H. destruct (in_dec string_dec k (keys m)); tauto.
Qed.

Lemma exec_closed_known (st : DataStore) (c : StoreOp * Env) :
  heap_closed st /\ snapshots_closed st /\ senders_known st ->
  heap_closed (exec st c) /\ snapshots_closed (exec st c) /\ senders_known (exec st c).
Proof.
  intros (Hc & Hs & Hk). split; [by apply exec_heap_closed|].
  unfold snapshots_closed, senders_known in *.
  rewrite !Forall_forall in *. split; intros m Hin%list_elem_of_In.
  - destruct (exec_messages_from st c m Hin) as [Hold|(impl & d & st' & _ & E)].
    + destruct (Hs m) as [user Hu]; [by apply list_elem_of_In|].
      exists user. eapply deref_grows; [apply exec_heap_grows|exact Hu].
    + apply createMessage_pushes in E as (_ & k & _ & Hg & _).
      destruct (heap_closed_get st k _ Hc Hg) as [user Hu].
      exists user. eapply deref_grows; [apply exec_heap_grows|exact Hu].
  - apply is_Some_get_keys.
    assert (In (Message.userId m) (keys (users st))) as Hkey.
    { destruct (exec_messages_from st c m Hin) as [Hold|(impl & d & st' & _ & E)].
      - apply is_Some_get_keys, Hk. by apply list_elem_of_In.
      - apply createMessage_pushes in E as (_ & k & _ & Hg & ->).
        apply is_Some_get_keys. by eexists. }
    apply list_elem_of_In. eapply elem_of_prefix; [|apply exec_keys_grow].
    by apply list_elem_of_In.
Qed.

(** X8: the history keeps its senders. If every reference of [users] and
    of the history points to an object, and the [userId] of every message is
    a key of [users], then the same holds after any sequence of calls of the
    store: a message never outlives its user, and its snapshot can always be
    read. *)
Theorem senders_stay_known (cs : list (StoreOp * Env)) (st : DataStore) :
  heap_closed st -> snapshots_closed st -> senders_known st ->
  heap_closed (exec_all cs st)
  /\ snapshots_closed (exec_all cs st)
  /\ senders_known (exec_all cs st).
Proof.
  intros Hc Hs Hk. assert (H := conj Hc (conj Hs Hk)). clear Hc Hs Hk.
  revert st H. induction cs as [|c cs IH]; intros st H; simpl; [done|].
  by apply IH, exec_closed_known.
Qed.

Lemma senders_stay_known_witness :
  senders_known
    (exec_all [(opCreateMessage Dist (textData (JStr "hi")), env0);
               (opUpdateUser "u1" (offline env1), env1)] store0)
  /\ snapshots_closed
       (exec_all [(opCreateMessage Dist (textData (JStr "hi")), env0);
                  (opUpdateUser "u1" (offline env1), env1)] store0).
Proof.
  destruct (senders_stay_known
              [(opCreateMessage Dist (textData (JStr "hi")), env0);
               (opUpdateUser "u1" (offline env1), env1)] store0)
    as (_ & Hs & Hk).
  - repeat constructor.
  - constructor.
  - constructor.
  - by split.
Defined.

(** * The constructor *)

(** ** What [loadData] builds *)

Lemma loadUser_wf (st : DataStore) (f : User.t) :
  store_wf st -> store_wf (loadUser st f).
Proof. intros Hwf. exact (store_wf_set st (loadedUser f) _ _ _ Hwf). Qed.

Lemma loadUser_offline (st : DataStore) (f : User.t) :
  store_wf st -> loaded_offline st -> loaded_offline (loadUser st f).
Proof.
  intros [_ Hrefs] Hoff. unfold loaded_offline, loadUser, deref in *. simpl.
  apply set_Forall; simpl.
  - exists f. apply lookup_alloc_new.
  - rewrite Forall_forall in *. intros [k r] Hin.
    destruct (Hoff _ Hin) as [f0 Hf0]. exists f0. by apply lookup_app_l_Some.
Qed.

Lemma loadUsers_wf (fs : list User.t) (st : DataStore) :
  store_wf st -> loaded_offline st ->
  store_wf (fold_left loadUser fs st) /\ loaded_offline (fold_left loadUser fs st).
Proof.
  revert st. induction fs as [|f fs IH]; intros st Hwf Hoff; simpl; [done|].
  apply IH; [by apply loadUser_wf|by apply loadUser_offline].
Qed.

Lemma loadUsers_frame (fs : list User.t) (st : DataStore) :
  messages (fold_left loadUser fs st) = messages st
  /\ disk (fold_left loadUser fs st) = disk st.
Proof. revert st. induction fs as [|f fs IH]; intros st; simpl; [done|]. by rewrite !(proj1 (IH _)), !(proj2 (IH _)). Qed.

Lemma loadUsers_has (fs : list User.t) (st : DataStore) (k : string) :
  In k (keys (users st)) \/ In k (List.map User.id fs) ->
  In k (keys (users (fold_left loadUser fs st))).
Proof.
  revert st. induction fs as [|f fs IH]; intros st; simpl; [tauto|].
  intros H. apply IH.
  assert (Hp := set_keys_prefix (User.id f) (length (heap st)) (users st)).
  destruct H as [H|[<-|H]]; [left|left|by right].
  - apply list_elem_of_In. eapply elem_of_prefix; [|exact Hp]. by apply list_elem_of_In.
  - apply is_Some_get_keys. simpl. rewrite get_set_eq. by eexists.
Qed.

(** What the messages of the file become: as many messages, each with the
    fields of its entry and a user object of its own, after the objects
    there were. *)
Lemma loadMessages_spec (msgs : list MessageJson) :
  forall h ms h',
    loadMessages msgs h = Some (ms, h') ->
    h `prefix_of` h'
    /\ List.map (Message.map_user (fun r => h' !! r)) ms = List.map reloaded msgs
    /\ Forall (fun m : Message.t ref => is_Some (h' !! Message.user m)) ms.
Proof.
  induction msgs as [|msg msgs IH]; intros h ms h'; simpl.
  - intros [= <- <-]. by repeat split.
  - unfold loadMessage. destruct (Message.user msg) as [user|] eqn:Hu; [|done].
    destruct (loadMessages msgs (h ++ [user])) as [[ms1 h1]|] eqn:E; [|done].
    intros [= <- <-]. destruct (IH _ _ _ E) as (Hp & Hmap & Hall).
    assert (Hnew : h1 !! length h = Some user).
    { eapply prefix_lookup_Some; [apply lookup_alloc_new|exact Hp]. }
    split; [|split].
    + etransitivity; [|exact Hp]. by apply prefix_app_r.
    + simpl. rewrite Hmap. f_equal.
      unfold Message.map_user, reloaded. f_equal. rewrite Hu. exact Hnew.
    + constructor; [|done]. exists user. exact Hnew.
Qed.


Lemma store_wf_heap (st : DataStore) (h : list User.t) (msgs : list (Message.t ref))
  (rs : Map Room.t) (dk : Disk) :
  heap st `prefix_of` h -> store_wf st -> store_wf (mkStore h (users st) msgs rs dk).
Proof.
  intros Hp [Hnd Hall]. split; [done|]. simpl.
  eapply Forall_impl; [exact Hall|].
  intros [k r] (user & Hd & Hid). exists user. split; [|done].
  unfold deref in *. simpl. by eapply prefix_lookup_Some.
Qed.

Lemma empty_store_wf (dk : Disk) : store_wf (mkStore [] [] [] [] dk).
Proof. split; [apply NoDup_nil_2|constructor]. Qed.

(** X9: the store after a start. [loadData] gives a store in which every
    user is stored once, under its own [id], and is offline whatever the
    file says; every user of the file is there; the history is the messages
    file, entry by entry and in its order, each message with the snapshot of
    its entry (no cap is applied at this point); and the files are left as
    they were. *)
Theorem loadData_fresh_store (d : Disk) (st : DataStore) :
  loadData d = Some st ->
  store_wf st
  /\ snapshots_closed st
  /\ (forall id user, record st id = Some user -> User.isOnline user = false)
  /\ (forall f, In f (usersFile d) -> is_Some (record st (User.id f)))
  /\ List.map (serialize st) (messages st) = List.map reloaded (messagesFile d)
  /\ disk st = d.
Proof.
  unfold loadData.
  set (st1 := fold_left loadUser (usersFile d) (mkStore [] [] [] [] d)).
  destruct (loadUsers_wf (usersFile d) (mkStore [] [] [] [] d))
    as [Hwf Hoff]; [apply empty_store_wf|constructor|]. fold st1 in Hwf, Hoff.
  destruct (loadMessages (messagesFile d) (heap st1)) as [[ms h]|] eqn:E; [|done].
  intros [= <-]. destruct (loadMessages_spec _ _ _ _ E) as (Hp & Hmap & Hall).
  assert (Hwf' := store_wf_heap st1 h ms (fold_left loadRoom (roomsFile d) []) d Hp Hwf).
  split; [done|]. split; [done|]. split; [|split; [|split; [done|done]]].
  - intros id user. unfold record, findUserById. simpl.
    destruct (get id (users st1)) as [r|] eqn:Hg; [|done]. intros Hd.
    unfold loaded_offline in Hoff. rewrite Forall_forall in Hoff.
    destruct (Hoff (id, r)) as [f Hf]; [by apply list_elem_of_In, get_In|].
    pose proof (prefix_lookup_Some _ _ _ _ Hf Hp) as Hf'.
    assert (Some user = Some (loadedUser f)) as [= ->] by (rewrite <- Hd; exact Hf').
    reflexivity.
  - intros f Hin. unfold record, findUserById. simpl.
    assert (In (User.id f) (keys (users st1))) as Hk.
    { apply loadUsers_has. right. by apply in_map. }
    apply is_Some_get_keys in Hk as [r Hg]. rewrite Hg. simpl.
    destruct (wf_entry _ _ _ Hwf' (get_In _ _ _ Hg)) as (_ & user & Hd & _).
    by exists user.
Qed.

Lemma loadData_fresh_store_witness :
  exists st,
    restarted = Some st
    /\ record st "u1" = Some (loadedUser alice)
    /\ User.isOnline (loadedUser alice) = false
    /\ length (messages st) = 2%nat.
Proof.
  destruct restarted as [st|] eqn:E; [|discriminate E].
  exists st. destruct (loadData_fresh_store (disk store2) st E) as (_ & _ & Hoff & _).
  injection E as <-. repeat split.
Defined.

(** ** Save, then start again *)









Lemma loadData_wf (d : Disk) (st : DataStore) : loadData d = Some st -> store_wf st.
Proof.
  unfold loadData.
  destruct (loadUsers_wf (usersFile d) (mkStore [] [] [] [] d))
    as [Hwf _]; [apply empty_store_wf|constructor|].
  destruct (loadMessages _ _) as [[ms h]|] eqn:E; [|done].
  intros [= <-]. destruct (loadMessages_spec _ _ _ _ E) as (Hp & _).
  by apply store_wf_heap.
Qed.

(** * Further properties of the server *)

(** ** Sessions, room and store fit together *)

Lemma get_delete_ne {V : Type} (k k0 : string) (m : Map V) :
  k <> k0 -> get k0 (delete k m) = get k0 m.
Proof.
  intros Hne. induction m as [|[k' v'] m IH]; simpl; [done|].
  destruct (String.eqb_spec k' k) as [->|Hk]; simpl.
  - destruct (String.eqb_spec k k0); [done|apply IH].
  - by rewrite IH.
Qed.

Lemma delete_In {V : Type} (k : string) (m : Map V) (p : string * V) :
  In p (delete k m) -> In p m.
Proof. unfold delete. by intros [H _]%filter_In. Qed.

Lemma delete_NoDup {V : Type} (k : string) (m : Map V) :
  NoDup (keys m) -> NoDup (keys (delete k m)).
Proof.
  induction m as [|[k' v'] m IH]; simpl; [done|]. intros [Hn Hnd]%NoDup_cons.
  destruct (String.eqb k' k); simpl; [by apply IH|].
  apply NoDup_cons. split; [|by apply IH].
  intros ((k1 & v1) & E & Hin%delete_In)%list_elem_of_In%in_map_iff. simpl in E. subst k1.
  apply Hn, list_elem_of_In. by apply (in_map fst) in Hin.
Qed.

Lemma mem_remove (sid other : string) (l : list string) :
  mem other (remove sid l) = negb (String.eqb other sid) && mem other l.
Proof.
  destruct (String.eqb_spec other sid) as [->|Hne]; simpl.
  - apply mem_remove_self.
  - by apply mem_remove_other.
Qed.

Lemma get_set {V : Type} (k k0 : string) (v : V) (m : Map V) :
  get k0 (set k v m) = if String.eqb k k0 then Some v else get k0 m.
Proof.
  destruct (String.eqb_spec k k0) as [->|Hne]; [apply get_set_eq|by apply get_set_ne].
Qed.

Lemma get_delete {V : Type} (k k0 : string) (m : Map V) :
  get k0 (delete k m) = if String.eqb k k0 then None else get k0 m.
Proof.
  destruct (String.eqb_spec k k0) as [->|Hne]; [apply get_delete_eq|by apply get_delete_ne].
Qed.

(** A session that names a user of the store still does so in a store whose
    keys have grown. *)
Lemma sessions_known_grow (st st' : DataStore) (cu : Map SocketUser.t) :
  keys (users st) `prefix_of` keys (users st') ->
  Forall (fun p : string * SocketUser.t =>
            SocketUser.socketId (snd p) = fst p
            /\ exists user, SocketUser.user (snd p) = Some user
                            /\ is_Some (get (User.id user) (users st))) cu ->
  Forall (fun p : string * SocketUser.t =>
            SocketUser.socketId (snd p) = fst p
            /\ exists user, SocketUser.user (snd p) = Some user
                            /\ is_Some (get (User.id user) (users st'))) cu.
Proof.
  intros Hp H. eapply Forall_impl; [exact H|]. intros [s su] (Hs & user & Hu & Hk).
  split; [done|]. exists user. split; [done|].
  apply is_Some_get_keys, list_elem_of_In. eapply elem_of_prefix; [|exact Hp].
  by apply list_elem_of_In, is_Some_get_keys.
Qed.

(** What a join leaves behind, on a well-formed store: the session of the
    socket, with the record of its user, and the socket in the room. *)
Lemma dist_join_session (sid : string) (userData : JoinData.t) (env : Env) (w : World) :
  store_wf (store w) ->
  exists user,
    let session := {| SocketUser.user := Some user; SocketUser.socketId := sid |} in
    connectedUsers (DistServer.join sid userData env w)
    = set sid session (connectedUsers w)
    /\ general (DistServer.join sid userData env w) = add sid (general w)
    /\ sockets (DistServer.join sid userData env w) = sockets w
    /\ record (store (DistServer.join sid userData env w)) (User.id user) = Some user
    /\ User.username user = JoinData.username userData
    /\ User.avatar user = JoinData.avatar userData
    /\ User.isOnline user = true
    /\ emitted w (DistServer.join sid userData env w)
       = [ mkEmit [sid] (Ev.recentMessages (recent50 (DistServer.join sid userData env w)));
           mkEmit [sid] (Ev.onlineUsers
                           (values (connectedUsers (DistServer.join sid userData env w))));
           mkEmit [sid] (Ev.joinSuccess session
                           (values (connectedUsers (DistServer.join sid userData env w)))
                           (recent50 (DistServer.join sid userData env w)));
           mkEmit (remove sid (add sid (general w)))
                  (Ev.userJoined session
                     (values (connectedUsers (DistServer.join sid userData env w)))) ].
Proof.
  intros Hwf.
  destruct (findUserByUsername (store w) (JoinData.username userData)) as [r|] eqn:Hf.
  - destruct (find_user_wf _ _ _ Hwf Hf) as (found & Hd & Hn & Hg).
    exists (spread found (online (JoinData.avatar userData) env)).
    unfold DistServer.join.
    rewrite (join_register_returning sid userData env w r found Hf Hd Hg).
    cbn [connectedUsers general sockets store socket_emit socket_to_general_emit].
    split; [done|]. split; [done|]. split; [done|]. split; [|split; [done|split; [done|split; [done|]]]].
    + apply updateUser_record. unfold record, findUserById. by rewrite Hg.
    + apply emitted_app. simpl. by rewrite <- !app_assoc.
  - exists (newUser (JoinData.username userData) (JoinData.avatar userData) env).
    unfold DistServer.join. rewrite (join_register_new sid userData env w Hf).
    cbn [connectedUsers general sockets store socket_emit socket_to_general_emit].
    split; [done|]. split; [done|]. split; [done|]. split; [|split; [done|split; [done|split; [done|]]]].
    + unfold record, findUserById, createUser. simpl. autorewrite with store. simpl.
      rewrite get_set_eq. simpl. apply deref_saved_alloc.
    + apply emitted_app. simpl. by rewrite <- !app_assoc.
Qed.

Lemma registry_ok_store (w : World) (st' : DataStore) :
  registry_ok w -> store_wf st' ->
  keys (users (store w)) `prefix_of` keys (users st') ->
  registry_ok (mkWorld st' (connectedUsers w) (sockets w) (general w) (trace w)).
Proof.
  intros (_ & Hnd & Hs & Hroom) Hwf Hp. split; [done|]. split; [done|].
  split; [|done]. simpl. by eapply sessions_known_grow.
Qed.

Lemma registry_ok_trace (w : World) (sk : list string) (tr : list Emit) :
  registry_ok w ->
  registry_ok (mkWorld (store w) (connectedUsers w) sk (general w) tr).
Proof. by intros (Hwf & Hnd & Hs & Hroom). Qed.

Lemma join_registry_ok (sid : string) (userData : JoinData.t) (env : Env) (w : World) :
  registry_ok w -> registry_ok (DistServer.join sid userData env w).
Proof.
  intros (Hwf & Hnd & Hs & Hroom).
  destruct (dist_join_session sid userData env w Hwf)
    as (user & Hcu & Hgen & _ & Hrec & _).
  split; [by apply join_wf|]. rewrite Hcu, Hgen. split; [by apply set_NoDup|]. split.
  - apply set_Forall.
    + split; [done|]. exists user. split; [done|].
      unfold record, findUserById in Hrec.
      destruct (get (User.id user) (users (store (DistServer.join sid userData env w))));
        [by eexists|done].
    + eapply sessions_known_grow; [apply join_keys_grow|exact Hs].
  - intros s. rewrite mem_add, get_set, (String.eqb_sym s sid).
    destruct (String.eqb sid s); simpl; [|apply Hroom].
    split; [by eexists|done].
Qed.

Lemma disconnect_registry_ok (sid : string) (env : Env) (w : World) :
  registry_ok w -> registry_ok (DistServer.on_disconnect sid env w).
Proof.
  intros Hok. pose proof Hok as (Hwf & Hnd & Hs & Hroom).
  destruct (get sid (connectedUsers w)) as [user|] eqn:Hsess.
  - rewrite (on_disconnect_session sid env w user Hsess).
    assert (Hst : store_wf (match SocketUser.id user with
                            | Some id => snd (updateUser (store w) id (offline env))
                            | None => store w
                            end)
                  /\ keys (users (store w))
                     `prefix_of` keys (users (match SocketUser.id user with
                                              | Some id => snd (updateUser (store w) id
                                                                           (offline env))
                                              | None => store w
                                              end))).
    { destruct (SocketUser.id user); [|done].
      split; [by apply updateUser_wf|by rewrite updateUser_keys]. }
    destruct Hst as [Hwf' Hp].
    split; [done|]. split; [by apply delete_NoDup|]. split; simpl.
    + eapply sessions_known_grow; [exact Hp|].
      rewrite Forall_forall in *. intros p Hin%list_elem_of_In%delete_In.
      by apply Hs, list_elem_of_In.
    + intros s. rewrite mem_remove, get_delete, (String.eqb_sym s sid).
      destruct (String.eqb sid s); simpl; [|apply Hroom].
      split; [done|]. by intros [? ?].
  - rewrite on_disconnect_no_session by done. unfold socket_close.
    split; [done|]. split; [done|]. split; [done|]. simpl.
    intros s. rewrite mem_remove.
    destruct (String.eqb_spec s sid) as [->|Hne]; simpl; [|apply Hroom].
    rewrite Hsess. split; [done|]. by intros [? ?].
Qed.

Lemma step_registry_ok (w : World) (e : DistServer.Event * Env) :
  registry_ok w -> registry_ok (DistServer.step w e).
Proof.
  intros Hok. event_cases e.
  - unfold connection. by apply registry_ok_trace.
  - by apply join_registry_ok.
  - pose proof (step_wf w (DistServer.evSendMessage sid messageData, env) (proj1 Hok)) as Hwf.
    pose proof (step_keys_grow w (DistServer.evSendMessage sid messageData, env)) as Hp.
    simpl in Hwf, Hp.
    assert (Hsame : connectedUsers (DistServer.sendMessage sid messageData env w)
                    = connectedUsers w
                    /\ general (DistServer.sendMessage sid messageData env w) = general w).
    { unfold DistServer.sendMessage. destruct (get sid (connectedUsers w)); [|done].
      destruct messageData as [messageData|]; [|done].
      destruct (DistStore.createMessage _ _ _) as [[m|] st1]; [|done].
      by destruct (is_string _). }
    destruct Hsame as [Hcu Hgen]. destruct Hok as (_ & Hnd & Hs & Hroom).
    split; [done|]. rewrite Hcu, Hgen. split; [done|]. split; [|done].
    by eapply sessions_known_grow.
  - unfold DistServer.typing. destruct (get sid (connectedUsers w)); [|done].
    by apply registry_ok_trace.
  - by apply disconnect_registry_ok.
  - unfold setStore. apply registry_ok_store; [done| |].
    + pose proof (step_wf w (DistServer.evCleanup, env) (proj1 Hok)) as Hwf. exact Hwf.
    + by destruct (cleanup_users (store w) env) as [-> _].
Qed.

(** X11: the state the server keeps is coherent from the start and stays
    so. In the world of a server that has just loaded its store, and after any
    sequence of events from there, every user is stored once under its own
    [id]; every session is held once, under the id of its own socket, and
    carries a user whose [id] is a key of the store; and the sockets in the
    room are exactly those that have a session. *)
Theorem registry_stays_coherent :
  (forall d st, loadData d = Some st -> registry_ok (mkWorld st [] [] [] []))
  /\ (forall evs w, registry_ok w -> registry_ok (DistServer.run evs w)).
Proof.
  split.
  - intros d st Hl. split; [by eapply loadData_wf|].
    split; [apply NoDup_nil_2|]. split; [constructor|].
    intros sid. simpl. split; [done|]. by intros [? ?].
  - induction evs as [|e evs IH]; intros w Hok; simpl; [done|].
    by apply IH, step_registry_ok.
Qed.

Lemma registry_stays_coherent_witness :
  exists st,
    restarted = Some st
    /\ registry_ok
         (DistServer.run [(DistServer.evConnection "A", env0);
                          (DistServer.evJoin "A" bob, envJ)]
                         (mkWorld st [] [] [] [])).
Proof.
  destruct registry_stays_coherent as [Hstart Hrun].
  destruct restarted as [st|] eqn:E; [|discriminate E].
  exists st. split; [reflexivity|]. apply Hrun. by apply (Hstart (disk store2)).
Defined.

(** ** Messages of a joined socket *)

Lemma getRecentMessages_pushed (st : DataStore) (m : Message.t ref) :
  getRecentMessages (pushMessage st m) 1 = [m].
Proof.
  unfold getRecentMessages. rewrite pushMessage_messages.
  rewrite (slice_neg_last 1000) by lia. rewrite length_app. simpl length.
  rewrite drop_app_le by lia.
  rewrite (slice_neg_last 1) by lia. rewrite length_app. simpl length.
  replace (length (drop (length (messages st) + 1 - Z.to_nat 1000) (messages st)) + 1
           - Z.to_nat 1)%nat
    with (length (drop (length (messages st) + 1 - Z.to_nat 1000) (messages st))) by lia.
  by rewrite drop_app_length.
Qed.

Lemma registry_session (w : World) (sid : string) (su : SocketUser.t) :
  registry_ok w -> get sid (connectedUsers w) = Some su ->
  SocketUser.socketId su = sid
  /\ mem sid (general w) = true
  /\ exists user r,
       SocketUser.user su = Some user
       /\ get (User.id user) (users (store w)) = Some r.
Proof.
  intros (_ & _ & Hs & Hroom) Hsess.
  rewrite Forall_forall in Hs.
  destruct (Hs (sid, su)) as (Hid & user & Hu & [r Hr]).
  { by apply list_elem_of_In, get_In. }
  split; [done|]. split; [apply Hroom; by eexists|]. by exists user, r.
Qed.

(** X12: what the compiled server does with a [sendMessage] from a socket
    that has joined. With a payload, the message is always stored and always
    broadcast, whatever the fields of the payload carry: the content and the
    type are stored as they came, under the [id] of the session's user, with
    the [id] and the time of the call; the message is then the latest of the
    history, and [newMessage] goes to the whole room, the sender included.
    When the content is not a string the sender receives [error] as well,
    although the message has been stored and broadcast. Without a payload
    ([undefined] or [null]) nothing is stored or broadcast, and the sender
    receives [error] alone. *)
Theorem sendMessage_delivers (sid : string) (messageData : option SendData.t) (env : Env)
  (w : World) (session : SocketUser.t) :
  registry_ok w ->
  get sid (connectedUsers w) = Some session ->
  mem sid (general w) = true
  /\ match messageData with
     | Some data =>
         exists m,
           getRecentMessages (store (DistServer.sendMessage sid messageData env w)) 1 = [m]
           /\ Message.content m = SendData.content data
           /\ Message.type m = SendData.type data
           /\ SocketUser.id session = Some (Message.userId m)
           /\ Message.id m = uuid env
           /\ Message.createdAt m = DateMs (now env)
           /\ emitted w (DistServer.sendMessage sid messageData env w)
              = mkEmit (general w)
                       (Ev.newMessage
                          (serialize (store (DistServer.sendMessage sid messageData env w))
                                     m))
                :: (if is_string (SendData.content data) then []
                    else [mkEmit [sid] (Ev.error "Error al enviar mensaje")])
     | None =>
         store (DistServer.sendMessage sid messageData env w) = store w
         /\ emitted w (DistServer.sendMessage sid messageData env w)
            = [mkEmit [sid] (Ev.error "Error al enviar mensaje")]
     end.
Proof.
  intros Hok Hsess.
  destruct (registry_session w sid session Hok Hsess) as (_ & Hmem & user & r & Hu & Hr).
  split; [done|].
  unfold DistServer.sendMessage. rewrite Hsess.
  destruct messageData as [data|].
  - unfold DistStore.createMessage, SocketUser.id. rewrite Hu. simpl. rewrite Hr.
    eexists. destruct (is_string (SendData.content data)); simpl.
    + split; [apply getRecentMessages_pushed|]. do 5 (split; [reflexivity|]).
      by apply emitted_app.
    + split; [apply getRecentMessages_pushed|]. do 5 (split; [reflexivity|]).
      apply emitted_app. simpl. by rewrite <- app_assoc.
  - split; [done|]. by apply emitted_app.
Qed.

Lemma worldB_registry_ok : registry_ok worldB.
Proof.
  split; [exact store0_wf|]. split; [apply NoDup_singleton|]. split.
  - repeat constructor. exists alice. split; [reflexivity|]. by eexists.
  - intros sid.
    change (mem sid (general worldB)) with (String.eqb sid "B" || false).
    change (get sid (connectedUsers worldB))
      with (if String.eqb "B" sid
            then Some {| SocketUser.user := Some alice; SocketUser.socketId := "B" |}
            else None).
    rewrite (String.eqb_sym sid "B").
    by destruct (String.eqb "B" sid); split; intros H; try done.
Qed.

Lemma sendMessage_delivers_witness :
  (exists m,
      getRecentMessages (store (DistServer.sendMessage "B" (Some numPayload) env0 worldB)) 1
      = [m]
      /\ Message.content m = JNum false "42"
      /\ Message.type m = JStr "text"
      /\ Some "u1" = Some (Message.userId m)
      /\ Message.id m = "m1"
      /\ Message.createdAt m = DateMs 5000
      /\ emitted worldB (DistServer.sendMessage "B" (Some numPayload) env0 worldB)
         = [mkEmit ["B"]
                   (Ev.newMessage
                      (serialize
                         (store (DistServer.sendMessage "B" (Some numPayload) env0 worldB))
                         m));
            mkEmit ["B"] (Ev.error "Error al enviar mensaje")])
  /\ store (DistServer.sendMessage "B" None env0 worldB) = store worldB
  /\ emitted worldB (DistServer.sendMessage "B" None env0 worldB)
     = [mkEmit ["B"] (Ev.error "Error al enviar mensaje")].
Proof.
  split.
  - exact (proj2 (sendMessage_delivers "B" (Some numPayload) env0 worldB
                    {| SocketUser.user := Some alice; SocketUser.socketId := "B" |}
                    worldB_registry_ok eq_refl)).
  - exact (proj2 (sendMessage_delivers "B" None env0 worldB
                    {| SocketUser.user := Some alice; SocketUser.socketId := "B" |}
                    worldB_registry_ok eq_refl)).
Defined.

(** ** The first server never stores a blank text *)

Lemma skip_space_app (p r v : string) :
  skip_space p = Some r -> skip_space (p ++ v)%string = Some (r ++ v)%string.
Proof.
  destruct p as [|c1 p]; [done|]. cbn [skip_space append].
  destruct (is_space c1); [by intros [= ->]|].
  destruct p as [|c2 p]; [done|]. cbn [append].
  destruct (is_space2 c1 c2); [by intros [= ->]|].
  destruct p as [|c3 p]; [done|]. cbn [append].
  destruct (is_space3 c1 c2 c3); [by intros [= ->]|done].
Qed.

Lemma skip_space_length (s r : string) :
  skip_space s = Some r -> (String.length r < String.length s)%nat.
Proof.
  destruct s as [|c1 s]; [done|]. cbn [skip_space].
  destruct (is_space c1); [intros [= ->]; simpl; lia|].
  destruct s as [|c2 s]; [done|].
  destruct (is_space2 c1 c2); [intros [= ->]; simpl; lia|].
  destruct s as [|c3 s]; [done|].
  destruct (is_space3 c1 c2 c3); [intros [= ->]; simpl; lia|done].
Qed.

Lemma trimStart_skip (s : string) :
  trimStart s = match skip_space s with Some r => trimStart r | None => s end.
Proof.
  destruct s as [|c1 s]; [done|]. cbn [skip_space trimStart].
  destruct (is_space c1); [done|].
  destruct s as [|c2 s]; [done|].
  destruct (is_space2 c1 c2); [done|].
  destruct s as [|c3 s]; [done|].
  by destruct (is_space3 c1 c2 c3).
Qed.

(** What [trimStart] leaves does not start with white space. *)
Lemma trimStart_clean (s : string) : skip_space (trimStart s) = None.
Proof.
  remember (String.length s) as n eqn:Hn.
  revert s Hn. induction (lt_wf n) as [n _ IH]. intros s ->.
  rewrite trimStart_skip. destruct (skip_space s) as [r|] eqn:E; [|done].
  by apply (IH (String.length r)); [apply skip_space_length|].
Qed.

Lemma trimEnd_cons (c : ascii) (r : string) :
  trimEnd (String c r)
  = match skip_space (String c (trimEnd r)) with
    | Some EmptyString => EmptyString
    | _ => String c (trimEnd r)
    end.
Proof. reflexivity. Qed.

Lemma trimEnd_prefix (s : string) : exists v, s = (trimEnd s ++ v)%string.
Proof.
  induction s as [|c r [v IH]]; [by exists ""|]. rewrite trimEnd_cons.
  destruct (skip_space (String c (trimEnd r))) as [[|c' r']|].
  - by eexists.
  - exists v. cbn [append]. by rewrite <- IH.
  - exists v. cbn [append]. by rewrite <- IH.
Qed.

(** Nor does what [trimEnd] leaves of it. *)
Lemma trimEnd_clean (s : string) : skip_space s = None -> skip_space (trimEnd s) = None.
Proof.
  intros Hs. destruct (trimEnd_prefix s) as [v Hv].
  destruct (skip_space (trimEnd s)) as [r|] eqn:E; [|done].
  apply (skip_space_app _ _ v) in E. rewrite <- Hv in E. congruence.
Qed.

Lemma trimEnd_idem (s : string) : trimEnd (trimEnd s) = trimEnd s.
Proof.
  induction s as [|c r IH]; [done|]. rewrite trimEnd_cons.
  destruct (skip_space (String c (trimEnd r))) as [[|c' r']|] eqn:E; [done| |].
  - by rewrite trimEnd_cons, IH, E.
  - by rewrite trimEnd_cons, IH, E.
Qed.

Lemma trim_idem (s : string) : trim (trim s) = trim s.
Proof.
  unfold trim.
  rewrite (trimStart_skip (trimEnd (trimStart s))).
  rewrite (trimEnd_clean _ (trimStart_clean s)). apply trimEnd_idem.
Qed.

Lemma pushMessage_Forall (P : Message.t ref -> Prop) (st : DataStore) (m : Message.t ref) :
  Forall P (messages st) -> P m -> Forall P (messages (pushMessage st m)).
Proof.
  intros Hl Hm. rewrite pushMessage_messages. rewrite Forall_forall in *.
  intros x Hx%list_elem_of_In%slice_In%in_app_or.
  destruct Hx as [Hx|[<-|[]]]; [|done]. by apply Hl, list_elem_of_In.
Qed.

Lemma js_or_text (v : JsVal) :
  js_or (js_or v (JStr "text")) (JStr "text") = js_or v (JStr "text").
Proof. unfold js_or. destruct (truthy v) eqn:E; [by rewrite E|done]. Qed.

(** X13: what the first [server.ts] stores. When its [sendMessage] handler
    returns, either the history is as it was, or one message has been pushed
    (the last 1000 kept): the sender has a session, the content of the message
    is the string of [text] (of [content] when [text] is falsy) with the white
    space of both ends removed, something is left of it, the type is
    [type || 'text'] and the [userId] that of the session. So a history
    without blank content stays without. *)
Theorem v1_sendMessage_no_blank (sid : string) (messageData : option SendData.t)
  (env : Env) (w w' : World) :
  ServerV1.sendMessage sid messageData env w = Some w' ->
  (messages (store w') = messages (store w)
   \/ exists data s session m,
        messageData = Some data
        /\ toString (v1_source data) = Some s
        /\ get sid (connectedUsers w) = Some session
        /\ messages (store w') = slice (-1000) (messages (store w) ++ [m])
        /\ Message.content m = JStr (trim s)
        /\ trim s <> ""
        /\ Message.type m = js_or (SendData.type data) (JStr "text")
        /\ SocketUser.id session = Some (Message.userId m))
  /\ (Forall (fun m => ~ blank (Message.content m)) (messages (store w)) ->
      Forall (fun m => ~ blank (Message.content m)) (messages (store w'))).
Proof.
  unfold ServerV1.sendMessage.
  destruct messageData as [data|]; [|done]. rewrite v1_normalize.
  destruct (truthy (v1_source data)); [|by intros [= <-]; split; [left|]].
  destruct (toString (v1_source data)) as [s|] eqn:Es; [|done].
  rewrite v1_guard.
  destruct (String.eqb_spec (trim s) "") as [|Hne]; [by intros [= <-]; split; [left|]|].
  destruct (get sid (connectedUsers w)) as [session|] eqn:Hs;
    [|by intros [= <-]; split; [left|]].
  rewrite ts_createMessage_unfold.
  destruct (ts_accepts _); [|by intros [= <-]; split; [left|]].
  unfold DistStore.createMessage.
  cbn [ts_normal MessageData.userId MessageData.content MessageData.type].
  destruct (SocketUser.id session) as [userId|] eqn:Hid;
    [|by intros [= <-]; split; [left|]].
  destruct (get userId (users (store w))) as [r|]; [|by intros [= <-]; split; [left|]].
  intros [= <-]. simpl. split.
  - right. eexists data, s, session, _.
    do 3 (split; [done|]). split; [apply pushMessage_messages|].
    split; [reflexivity|]. split; [done|]. split; [apply js_or_text|exact Hid].
  - intros Hh. apply pushMessage_Forall; [done|]. simpl. by rewrite trim_idem.
Qed.

Lemma v1_sendMessage_no_blank_witness :
  exists w',
    ServerV1.sendMessage "B" (Some paddedPayload) env0 worldB = Some w'
    /\ List.map (fun m => Message.content m) (messages (store w')) = [JStr "hi"]
    /\ Forall (fun m => ~ blank (Message.content m)) (messages (store w')).
Proof.
  destruct (ServerV1.sendMessage "B" (Some paddedPayload) env0 worldB) as [w'|] eqn:E;
    [|vm_compute in E; discriminate E].
  exists w'. split; [reflexivity|].
  destruct (v1_sendMessage_no_blank "B" (Some paddedPayload) env0 worldB w' E) as [_ Hf].
  split; [|apply Hf; constructor].
  vm_compute in E. injection E as <-. reflexivity.
Defined.

(** ** The typing indicator *)

(** X14: the typing indicator reaches the other members and nobody else.
    When the socket has a session, [userTyping] with that session and the flag
    received is what every other socket with a session receives, and the only
    thing; the sender and the sockets without a session receive nothing.
    Without a session the handler does nothing. The store, the sessions and
    the room are left as they were in every case. *)
Theorem typing_reaches_others (sid : string) (isTyping : bool) (w : World) :
  registry_ok w ->
  store (DistServer.typing sid isTyping w) = store w
  /\ connectedUsers (DistServer.typing sid isTyping w) = connectedUsers w
  /\ general (DistServer.typing sid isTyping w) = general w
  /\ (get sid (connectedUsers w) = None -> DistServer.typing sid isTyping w = w)
  /\ forall session other,
       get sid (connectedUsers w) = Some session ->
       (other <> sid -> is_Some (get other (connectedUsers w)) ->
        received other (emitted w (DistServer.typing sid isTyping w))
        = [Ev.userTyping session isTyping])
       /\ (other = sid \/ get other (connectedUsers w) = None ->
           received other (emitted w (DistServer.typing sid isTyping w)) = []).
Proof.
  intros (_ & _ & _ & Hroom). unfold DistServer.typing.
  destruct (get sid (connectedUsers w)) as [user|] eqn:Hsess.
  - do 3 (split; [done|]). split; [done|].
    intros session other [= <-].
    rewrite (emitted_app w _ [mkEmit (remove sid (general w)) (Ev.userTyping user isTyping)])
      by done.
    unfold received. simpl. rewrite mem_remove. split.
    + intros Hne Hs. apply Hroom in Hs. rewrite Hs.
      by destruct (String.eqb_spec other sid).
    + intros [->|Hnone].
      * by rewrite String.eqb_refl.
      * destruct (mem other (general w)) eqn:Hm; [|by rewrite andb_false_r].
        apply Hroom in Hm. rewrite Hnone in Hm. by destruct Hm.
  - do 4 (split; [done|]). by intros session other.
Qed.

Lemma worldTwoTabs_registry_ok : registry_ok worldTwoTabs.
Proof. do 2 apply step_registry_ok. exact worldB_registry_ok. Qed.

Lemma typing_reaches_others_witness :
  received "B" (emitted worldTwoTabs (DistServer.typing "A" true worldTwoTabs))
  = [Ev.userTyping
       {| SocketUser.user
          := Some {| User.id := "u1"; User.username := "alice"; User.avatar := "a2.png";
                     User.isOnline := true; User.lastSeen := DateMs 7000;
                     User.createdAt := DateMs 1000 |};
          SocketUser.socketId := "A" |} true]
  /\ received "A" (emitted worldTwoTabs (DistServer.typing "A" true worldTwoTabs)) = [].
Proof.
  destruct (typing_reaches_others "A" true worldTwoTabs worldTwoTabs_registry_ok)
    as (_ & _ & _ & _ & H).
  split.
  - apply (H _ "B" eq_refl); [discriminate|by eexists].
  - apply (H _ "A" eq_refl). by left.
Defined.

(** ** One user on two sockets *)

Lemma registry_record (w : World) (id : string) :
  registry_ok w -> is_Some (get id (users (store w))) ->
  exists user, get id (users (store w)) ≫= deref (store w) = Some user.
Proof.
  intros (Hwf & _) [r Hr].
  destruct (wf_entry (store w) id r Hwf (get_In _ _ _ Hr)) as (_ & user & Hd & _).
  exists user. by rewrite Hr.
Qed.

(** X15: the store marks a user offline as soon as one of its sockets
    closes. When two sockets hold a session of the same user and one of them
    closes, the other keeps its session and its place in the room, and
    [GET /api/users/online] still lists the user with [isOnline: true], while
    the record of the store has [isOnline] false and [lastSeen] at the time of
    the disconnect. *)
Theorem disconnect_with_second_session (sidA sidB id : string) (env : Env) (w : World)
  (sessionA sessionB : SocketUser.t) :
  registry_ok w ->
  sidA <> sidB ->
  get sidA (connectedUsers w) = Some sessionA ->
  get sidB (connectedUsers w) = Some sessionB ->
  SocketUser.id sessionA = Some id ->
  SocketUser.id sessionB = Some id ->
  get sidB (connectedUsers (DistServer.on_disconnect sidA env w)) = Some sessionB
  /\ mem sidB (general (DistServer.on_disconnect sidA env w)) = true
  /\ (exists o, In o (apiUsersOnline (DistServer.on_disconnect sidA env w))
                /\ OnlineUser.id o = Some id /\ OnlineUser.isOnline o = true)
  /\ exists user, record (store (DistServer.on_disconnect sidA env w)) id = Some user
                  /\ User.isOnline user = false
                  /\ User.lastSeen user = DateMs (now env).
Proof.
  intros Hok Hne HA HB HidA HidB.
  destruct (registry_session w sidA sessionA Hok HA) as (_ & _ & uA & rA & HuA & HrA).
  destruct (registry_session w sidB sessionB Hok HB) as (_ & HmB & _).
  assert (User.id uA = id) as Hid.
  { unfold SocketUser.id in HidA. rewrite HuA in HidA. by injection HidA. }
  rewrite Hid in HrA.
  destruct (registry_record w id Hok (mk_is_Some _ _ HrA)) as [user Hrec].
  rewrite (on_disconnect_session sidA env w sessionA HA). rewrite HidA. simpl.
  assert (HB' : get sidB (delete sidA (connectedUsers w)) = Some sessionB).
  { rewrite get_delete. by destruct (String.eqb_spec sidA sidB). }
  split; [done|]. split.
  { rewrite mem_remove, HmB. by destruct (String.eqb_spec sidB sidA) as [->|]. }
  split.
  - eexists. split.
    + unfold apiUsersOnline. simpl. apply in_map.
      apply (in_map snd _ (sidB, sessionB)), get_In, HB'.
    + split; [exact HidB|reflexivity].
  - exists (spread user (offline env)). split; [|done].
    unfold record, findUserById. by apply updateUser_record.
Qed.

Lemma disconnect_with_second_session_witness :
  get "B" (connectedUsers (DistServer.on_disconnect "A" env1 worldTwoTabs))
  = Some {| SocketUser.user := Some alice; SocketUser.socketId := "B" |}
  /\ mem "B" (general (DistServer.on_disconnect "A" env1 worldTwoTabs)) = true
  /\ (exists o, In o (apiUsersOnline (DistServer.on_disconnect "A" env1 worldTwoTabs))
                /\ OnlineUser.id o = Some "u1" /\ OnlineUser.isOnline o = true)
  /\ exists user, record (store (DistServer.on_disconnect "A" env1 worldTwoTabs)) "u1"
                  = Some user
                  /\ User.isOnline user = false
                  /\ User.lastSeen user = DateMs (now env1).
Proof.
  eapply (disconnect_with_second_session "A" "B" "u1" env1 worldTwoTabs);
    [exact worldTwoTabs_registry_ok|discriminate|reflexivity|reflexivity
    |reflexivity|reflexivity].
Defined.

(** ** What a join hands over *)

Lemma mem_single (sid other : string) : other <> sid -> mem other [sid] = false.
Proof.
  intros Hne. unfold mem. simpl. by destruct (String.eqb_spec other sid).
Qed.



(** ** The third server on the TypeScript store *)

Lemma setStore_same (w : World) : setStore (store w) w = w.
Proof. by destruct w. Qed.

(** X17: the third [server.ts] on the TypeScript store keeps out what is
    no text, and nothing else. From a socket with a session whose user has a
    non-empty [id]: a content that is a non-empty string is stored with the
    white space of both ends removed, with [type || 'text'], as the latest
    message, and broadcast to the room, also when nothing is left of it after
    trimming; a payload whose content is the empty string or no string leaves
    the server as it was, and nothing is sent, not even an [error]; without a
    payload ([undefined] or [null]) nothing is stored and the sender receives
    [error]. *)
Theorem v3_sendMessage_guard (sid : string) (messageData : option SendData.t) (env : Env)
  (w : World) (session : SocketUser.t) :
  registry_ok w ->
  get sid (connectedUsers w) = Some session ->
  SocketUser.id session <> Some "" ->
  match messageData with
  | None =>
      store (ServerV3.sendMessage sid messageData env w) = store w
      /\ emitted w (ServerV3.sendMessage sid messageData env w)
         = [mkEmit [sid] (Ev.error "Error al enviar mensaje")]
  | Some data =>
      match SendData.content data with
      | JStr s =>
          if String.eqb s "" then ServerV3.sendMessage sid messageData env w = w
          else
            exists m,
              getRecentMessages (store (ServerV3.sendMessage sid messageData env w)) 1
              = [m]
              /\ Message.content m = JStr (trim s)
              /\ Message.type m = js_or (SendData.type data) (JStr "text")
              /\ SocketUser.id session = Some (Message.userId m)
              /\ emitted w (ServerV3.sendMessage sid messageData env w)
                 = [mkEmit (general w)
                           (Ev.newMessage
                              (serialize
                                 (store (ServerV3.sendMessage sid messageData env w)) m))]
      | _ => ServerV3.sendMessage sid messageData env w = w
      end
  end.
Proof.
  intros Hok Hsess Hid.
  destruct (registry_session w sid session Hok Hsess) as (_ & _ & user & r & Hu & Hr).
  unfold ServerV3.sendMessage. rewrite Hsess.
  destruct messageData as [data|]; [|split; [done|by apply emitted_app]].
  rewrite ts_createMessage_unfold.
  unfold ts_accepts, content_missing, SocketUser.id in *. rewrite Hu in *.
  cbn [MessageData.content MessageData.userId fmap option_fmap option_map].
  destruct (SendData.content data) as [| |b|zero str|s|str] eqn:Hc;
    cbn [truthy is_string negb]; rewrite ?orb_true_r; cbn [negb andb];
    try apply setStore_same.
  destruct (String.eqb_spec s "") as [|_]; [apply setStore_same|].
  destruct (String.eqb_spec (User.id user) "") as [E|_];
    [destruct Hid; simpl; by f_equal|].
  unfold DistStore.createMessage, ts_normal. simpl. rewrite Hr.
  eexists. split; [apply getRecentMessages_pushed|].
  do 3 (split; [reflexivity|]). by apply emitted_app.
Qed.

Lemma v3_sendMessage_guard_witness :
  (exists m,
      getRecentMessages (store (ServerV3.sendMessage "B" (Some paddedPayload) env0 worldB)) 1
      = [m]
      /\ Message.content m = JStr "hi"
      /\ Message.type m = JStr "text")
  /\ (exists m,
         getRecentMessages (store (ServerV3.sendMessage "B" (Some spacesPayload) env0 worldB))
                           1
         = [m]
         /\ Message.content m = JStr ""
         /\ emitted worldB (ServerV3.sendMessage "B" (Some spacesPayload) env0 worldB)
            = [mkEmit ["B"]
                      (Ev.newMessage
                         (serialize
                            (store (ServerV3.sendMessage "B" (Some spacesPayload) env0
                                                         worldB))
                            m))])
  /\ ServerV3.sendMessage "B" (Some numPayload) env0 worldB = worldB
  /\ emitted worldB (ServerV3.sendMessage "B" None env0 worldB)
     = [mkEmit ["B"] (Ev.error "Error al enviar mensaje")].
Proof.
  assert (Hid : SocketUser.id {| SocketUser.user := Some alice; SocketUser.socketId := "B" |}
                <> Some "") by discriminate.
  split; [|split; [|split]].
  - destruct (v3_sendMessage_guard "B" (Some paddedPayload) env0 worldB _
                worldB_registry_ok eq_refl Hid) as (m & Hm & Hc & Ht & _).
    by exists m.
  - destruct (v3_sendMessage_guard "B" (Some spacesPayload) env0 worldB _
                worldB_registry_ok eq_refl Hid) as (m & Hm & Hc & _ & _ & He).
    by exists m.
  - exact (v3_sendMessage_guard "B" (Some numPayload) env0 worldB _
             worldB_registry_ok eq_refl Hid).
  - exact (proj2 (v3_sendMessage_guard "B" None env0 worldB _
                    worldB_registry_ok eq_refl Hid)).
Defined.

(** ** What a socket outside the room receives *)

Lemma step_outsider (sid : string) (w : World) (e : DistServer.Event * Env) :
  store_wf (store w) ->
  mem sid (general w) = false ->
  get sid (connectedUsers w) = None ->
  is_join_of sid e = false ->
  mem sid (general (DistServer.step w e)) = false
  /\ get sid (connectedUsers (DistServer.step w e)) = None
  /\ exists es, trace (DistServer.step w e) = trace w ++ es /\ Forall (leave_only sid) es.
Proof.
  intros Hwf Hg Hs Hj. unfold is_join_of in Hj.
  destruct e as [[s|s userData|s messageData|s isTyping|s|] env]; simpl in Hj |- *.
  - do 2 (split; [done|]). exists []. by rewrite app_nil_r.
  - apply String.eqb_neq in Hj.
    destruct (join_register_user s userData env w Hwf) as (r & user & st1 & Hr).
    unfold DistServer.join. rewrite Hr. simpl. split.
    { rewrite mem_add, Hg. by destruct (String.eqb_spec sid s) as [->|]. }
    split; [by rewrite get_set_ne|].
    eexists. rewrite <- !app_assoc. split; [reflexivity|].
    assert (Hm : mem sid [s] = false) by (apply mem_single; congruence).
    repeat constructor; unfold leave_only; cbn [recipients payload]; try by rewrite Hm.
    rewrite mem_remove, mem_add, Hg. by destruct (String.eqb_spec sid s).
  - unfold DistServer.sendMessage.
    destruct (get s (connectedUsers w)) as [user|] eqn:Hu.
    2:{ do 2 (split; [done|]). exists []. by rewrite app_nil_r. }
    assert (Hne : sid <> s) by (intros ->; congruence).
    assert (Hm : mem sid [s] = false) by by apply mem_single.
    destruct messageData as [messageData|].
    2:{ simpl. do 2 (split; [done|]). eexists. split; [reflexivity|].
        repeat constructor. unfold leave_only. cbn [recipients payload]. by rewrite Hm. }
    destruct (DistStore.createMessage _ _ _) as [[m|] st1].
    2:{ do 2 (split; [done|]). exists []. by rewrite app_nil_r. }
    destruct (is_string _); simpl.
    + do 2 (split; [done|]). eexists. split; [reflexivity|].
      repeat constructor. unfold leave_only. cbn [recipients payload]. by rewrite Hg.
    + do 2 (split; [done|]). eexists. rewrite <- app_assoc. split; [reflexivity|].
      repeat constructor; unfold leave_only; cbn [recipients payload]; by rewrite ?Hg, ?Hm.
  - unfold DistServer.typing.
    destruct (get s (connectedUsers w)) as [user|] eqn:Hu.
    2:{ do 2 (split; [done|]). exists []. by rewrite app_nil_r. }
    simpl. do 2 (split; [done|]). eexists. split; [reflexivity|].
    repeat constructor. unfold leave_only. cbn [recipients payload].
    rewrite mem_remove, Hg. by rewrite andb_false_r.
  - destruct (get s (connectedUsers w)) as [user|] eqn:Hu.
    + rewrite (on_disconnect_session s env w user Hu). simpl.
      split; [rewrite mem_remove, Hg; by rewrite andb_false_r|].
      split; [rewrite get_delete, Hs; by destruct (String.eqb s sid)|].
      eexists. split; [reflexivity|]. by repeat constructor.
    + rewrite on_disconnect_no_session by done. simpl.
      split; [rewrite mem_remove, Hg; by rewrite andb_false_r|].
      split; [done|]. exists []. by rewrite app_nil_r.
  - do 2 (split; [done|]). exists []. by rewrite app_nil_r.
Qed.

Lemma run_outsider (sid : string) (evs : list (DistServer.Event * Env)) (w : World) :
  store_wf (store w) ->
  mem sid (general w) = false ->
  get sid (connectedUsers w) = None ->
  Forall (fun e => is_join_of sid e = false) evs ->
  exists es, trace (DistServer.run evs w) = trace w ++ es /\ Forall (leave_only sid) es.
Proof.
  revert w. induction evs as [|e evs IH]; intros w Hwf Hg Hs Hj; simpl.
  - exists []. by rewrite app_nil_r.
  - apply Forall_cons in Hj as [He Hj].
    destruct (step_outsider sid w e Hwf Hg Hs He) as (Hg' & Hs' & es1 & Ht1 & Hf1).
    destruct (IH (DistServer.step w e) (step_wf w e Hwf) Hg' Hs' Hj) as (es2 & Ht2 & Hf2).
    exists (es1 ++ es2). rewrite Ht2, Ht1, <- app_assoc. split; [done|].
    by apply Forall_app.
Qed.

(** X18: a socket that has not joined hears of nothing but departures.
    Take a socket that has no session and is not in the room, and any sequence
    of events in which it sends no [join]: connections, joins, messages, typing
    and disconnects of other sockets, its own messages and typing, the hourly
    cleanup. Every event it receives is a [userLeft]; no message, no list of
    users and no typing indicator reaches it. *)
Theorem outsider_receives_only_userLeft (sid : string)
  (evs : list (DistServer.Event * Env)) (w : World) :
  store_wf (store w) ->
  mem sid (general w) = false ->
  get sid (connectedUsers w) = None ->
  Forall (fun e => is_join_of sid e = false) evs ->
  Forall (fun p => is_userLeft p = true)
         (received sid (emitted w (DistServer.run evs w))).
Proof.
  intros Hwf Hg Hs Hj.
  destruct (run_outsider sid evs w Hwf Hg Hs Hj) as (es & Ht & Hf).
  rewrite (emitted_app w _ es Ht). unfold received. clear Ht.
  induction Hf as [|e es He Hf IH]; simpl; [constructor|].
  destruct (mem sid (recipients e)) eqn:Hm; [|done].
  simpl. constructor; [by apply He|done].
Qed.

Lemma outsider_receives_only_userLeft_witness :
  Forall (fun p => is_userLeft p = true)
         (received "A"
            (emitted worldAB
               (DistServer.run [(DistServer.evSendMessage "B" (Some hiPayload), env0);
                                (DistServer.evTyping "B" true, env0);
                                (DistServer.evDisconnect "B", env1)] worldAB)))
  /\ length (received "A"
               (emitted worldAB
                  (DistServer.run [(DistServer.evSendMessage "B" (Some hiPayload), env0);
                                   (DistServer.evTyping "B" true, env0);
                                   (DistServer.evDisconnect "B", env1)] worldAB)))
     = 1%nat.
Proof.
  split; [|reflexivity].
  apply (outsider_receives_only_userLeft "A"); [exact store0_wf|reflexivity|reflexivity|].
  repeat constructor.
Defined.
